(** * openag_brain: the PID controller and the image persistence sink

    A shallow embedding of

    - [src/openag_brain/software_modules/pid.py]: the [PID] class, the
      two subscriber callbacks and the start-up code of the node;
    - [src/openag_brain/software_modules/image_persistence.py]: the
      [ImagePersistence] class with its rate limit and its two writes
      to the CouchDB server.

    Numbers.  The controller and the rate limit only add, subtract,
    multiply and compare numbers.  They are modelled as rationals [Q]
    with exact arithmetic: [<] is [Qlt], and a value handed back by
    [min], [max] or a literal is that very value (Leibniz equality).
    Rounding, infinities and NaN of IEEE doubles are outside the model. *)

From Stdlib Require Import QArith Qabs Lqa Lia List.
From stdpp Require Import base option strings gmap.

Open Scope Q_scope.

(** ** Python builtins used by the two modules *)

Module Py.

(** [a < b] as a truth value. *)
Definition lt (a b : Q) : bool :=
  match a ?= b with Lt => true | _ => false end.

(** [min(a, b)]: the first argument is kept unless the second one is
    strictly smaller. *)
Definition min (a b : Q) : Q := if lt b a then b else a.

(** [max(a, b)]: the first argument is kept unless the second one is
    strictly greater. *)
Definition max (a b : Q) : Q := if lt a b then b else a.

Definition abs (a : Q) : Q := Qabs a.

(** A call either returns or raises. *)
Inductive exn : Type :=
| ValueError
| RuntimeError (msg : string)
| ExternalError (origin : string).

Inductive outcome (A : Type) : Type :=
| Returned (a : A)
| Raised (e : exn).
Arguments Returned {A} a.
Arguments Raised {A} e.

End Py.

(** ** pid.py *)

Module Pid.

(** The attributes of a [PID] object.  [set_point] is [None] until the
    first message on the [desired] topic. *)
Record PID : Type := mkPID {
  Kp : Q;
  Ki : Q;
  Kd : Q;
  upper_limit : Q;
  lower_limit : Q;
  windup_limit : Q;
  deadband_width : Q;
  set_point : option Q;
  last_error : Q;
  integrator : Q
}.

(** [PID.__init__]: seven assignments of the arguments, three of
    constants. *)
Definition init (Kp Ki Kd upper_limit lower_limit windup_limit
                 deadband_width : Q) : PID :=
  {| Kp := Kp; Ki := Ki; Kd := Kd;
     upper_limit := upper_limit; lower_limit := lower_limit;
     windup_limit := windup_limit; deadband_width := deadband_width;
     set_point := None; last_error := 0; integrator := 0 |}.

(** Attribute assignments [self.x = v]. *)
Definition set_set_point (self : PID) (v : option Q) : PID :=
  {| Kp := Kp self; Ki := Ki self; Kd := Kd self;
     upper_limit := upper_limit self; lower_limit := lower_limit self;
     windup_limit := windup_limit self;
     deadband_width := deadband_width self;
     set_point := v;
     last_error := last_error self; integrator := integrator self |}.

Definition set_last_error (self : PID) (v : Q) : PID :=
  {| Kp := Kp self; Ki := Ki self; Kd := Kd self;
     upper_limit := upper_limit self; lower_limit := lower_limit self;
     windup_limit := windup_limit self;
     deadband_width := deadband_width self;
     set_point := set_point self;
     last_error := v; integrator := integrator self |}.

Definition set_integrator (self : PID) (v : Q) : PID :=
  {| Kp := Kp self; Ki := Ki self; Kd := Kd self;
     upper_limit := upper_limit self; lower_limit := lower_limit self;
     windup_limit := windup_limit self;
     deadband_width := deadband_width self;
     set_point := set_point self;
     last_error := last_error self; integrator := v |}.

(** [PID.update]: the value returned ([None] for the bare [return])
    and the object after the call. *)
Definition update (self : PID) (state : Q) : option Q * PID :=
  match set_point self with
  | None => (None, self)
  | Some sp =>
      let error := sp - state in
      let p_value := Kp self * error in
      let d_value := Kd self * (error - last_error self) in
      let self := set_last_error self error in
      let self := set_integrator self (integrator self + error) in
      let self :=
        set_integrator self
          (Py.max (- windup_limit self)
                  (Py.min (windup_limit self) (integrator self))) in
      let i_value := Ki self * integrator self in
      let res := p_value + i_value + d_value in
      let res := Py.min (upper_limit self) (Py.max (lower_limit self) res) in
      if Py.lt (Py.abs res) (deadband_width self) then (Some 0, self)
      else (Some res, self)
  end.

(** The local variable [res] of [update] before and after the limits,
    as a function of the object at entry; [update_result] below shows
    that these are the values [update] computes. *)
Definition res_raw (self : PID) (sp state : Q) : Q :=
  let error := sp - state in
  Kp self * error
  + Ki self * Py.max (- windup_limit self)
                     (Py.min (windup_limit self) (integrator self + error))
  + Kd self * (error - last_error self).

Definition res_limited (self : PID) (sp state : Q) : Q :=
  Py.min (upper_limit self) (Py.max (lower_limit self) (res_raw self sp state)).

(** *** The node: start-up and the two callbacks *)

Definition param_names : list string :=
  ["Kp"; "Ki"; "Kd"; "lower_limit"; "upper_limit"; "windup_limit";
   "deadband_width"].

(** The loop filling [param_values]: a name is copied when the
    parameter server has the private parameter ([rospy.has_param]). *)
Definition load_params (server : gmap string Q) : gmap string Q :=
  foldl (fun param_values param_name =>
           let private_param_name := "~" +:+ param_name in
           match server !! private_param_name with
           | Some v => <[param_name := v]> param_values
           | None => param_values
           end)
        ∅ param_names.

(** The keyword-argument call of the constructor: a keyword that is
    absent from [param_values] takes the default of the signature. *)
Definition kwarg (kw : gmap string Q) (name : string) (dflt : Q) : Q :=
  default dflt (kw !! name).

Definition init_kwargs (kw : gmap string Q) : PID :=
  init (kwarg kw "Kp" 0) (kwarg kw "Ki" 0) (kwarg kw "Kd" 0)
       (kwarg kw "upper_limit" 1) (kwarg kw "lower_limit" (-1))
       (kwarg kw "windup_limit" 1000) (kwarg kw "deadband_width" 0).

(** The script up to the construction of [pid] from [param_values]. *)
Definition startup (namespace : string) (server : gmap string Q)
  : Py.outcome PID :=
  if String.eqb namespace "/" then
    Py.Raised (Py.RuntimeError
      "Cannot be run in the global namespace. Please designate an environment for this module.")
  else
    let param_values := load_params server in
    Py.Returned (init_kwargs param_values).

(** [state_callback]: what is published on [cmd], and the controller
    afterwards. *)
Definition state_callback (pid : PID) (item : Q) : list Q * PID :=
  let '(cmd, pid) := update pid item in
  match cmd with
  | None => ([], pid)
  | Some c => ([c], pid)
  end.

Definition set_point_callback (pid : PID) (item : Q) : PID :=
  set_set_point pid (Some item).

(** Messages are handled one at a time, in the order of arrival. *)
Inductive msg : Type :=
| Desired (data : Q)
| State (data : Q).

Definition deliver (pid : PID) (m : msg) : list Q * PID :=
  match m with
  | Desired v => ([], set_point_callback pid v)
  | State v => state_callback pid v
  end.

Fixpoint spin (pid : PID) (ms : list msg) : list Q * PID :=
  match ms with
  | [] => ([], pid)
  | m :: ms =>
      let '(out, pid) := deliver pid m in
      let '(outs, pid) := spin pid ms in
      (out ++ outs, pid)
  end.

(** [update] called [n] times with the same measured value. *)
Fixpoint drive (self : PID) (state : Q) (n : nat) : PID :=
  match n with
  | O => self
  | S n => drive (snd (update self state)) state n
  end.

(** [update] called once per measured value; the results in order. *)
Fixpoint updates (self : PID) (states : list Q) : list (option Q) * PID :=
  match states with
  | [] => ([], self)
  | state :: states =>
      let '(r, self) := update self state in
      let '(rs, self) := updates self states in
      (r :: rs, self)
  end.

End Pid.

(** ** image_persistence.py *)

(** Modelled from the spec: [openag.models.EnvironmentalDataPoint], whose
    class is not among the sources.  A data point has an environment, a
    variable, the flag [is_desired], a value that is numeric or absent,
    and a timestamp; these are also the keys of the dictionary literal
    [on_image] builds it from. *)
Module Models.

Record EnvironmentalDataPoint : Type := {
  environment : string;
  variable : string;
  is_desired : bool;
  value : option Q;
  timestamp : Q
}.

End Models.

Module Image.

(** A [sensor_msgs/Image] message, as far as [on_image] reads it. *)
Record ImageMsg : Type := {
  encoding : string;
  width : Z;
  height : Z;
  data : string
}.

(** The object built by [Image.fromstring(mode, size, data)] when PIL
    accepts the data. *)
Record PILImage : Type := {
  mode : string;
  size : Z * Z;
  pixels : string
}.

Definition raw_image (mode : string) (size : Z * Z) (data : string)
  : PILImage :=
  {| mode := mode; size := size; pixels := data |}.

(** The buffer after [img.save(buf, "PNG")]: the PNG encoding of an
    image, kept symbolic. *)
Inductive Buffer : Type :=
| PNG (img : PILImage).

(** Modelled from the spec: the variable type
    ([openag.var_types.AERIAL_IMAGE], not among the sources), an
    identifier of the measured quantity read through [name]. *)
Record VarType : Type := { name : string }.

(** The database handle, as far as it is read ([db.resource.url]). *)
Record Database : Type := { resource_url : string }.

(** An HTTP response of the database server. *)
Record Response : Type := {
  status_code : Z;
  content : string
}.

(** What one call of [on_image] meets outside the object: the two
    readings of [time.time()], in program order, whether PIL accepts
    the pixel data of the frame for its mode and size (it raises
    [ValueError] for data that do not fill the image), and the replies
    of the database to [db.save] and to the attachment upload.  [None]
    as a reply stands for an exception raised inside the client
    library. *)
Record Env : Type := {
  time_1 : Q;
  time_2 : Q;
  image_ok : bool;
  save_reply : option (string * string);
  put_reply : option Response
}.

(** The visible actions of the module, in the order they happen. *)
Inductive effect : Type :=
| LogInfo (text : string)
| DbSave (point : Models.EnvironmentalDataPoint)
         (reply : option (string * string))
| HttpPut (url : string) (body : Buffer) (headers : list (string * string))
          (reply : option Response).

(** The attributes of an [ImagePersistence] object (the subscriber
    handle [sub] is left out). *)
Record ImagePersistence : Type := {
  db : Database;
  variable : VarType;
  environment : string;
  min_update_interval : Q;
  last_update : Q
}.

Definition image_format_mapping : gmap string string :=
  <["rgb8" := "RGB"]> (<["rgba8" := "RGBA"]> ∅).

(** [ImagePersistence.__init__]. *)
Definition init (db : Database) (variable : VarType) (environment : string)
    (min_update_interval : Q) : ImagePersistence :=
  {| db := db; variable := variable; environment := environment;
     min_update_interval := min_update_interval;
     last_update := 0 |}.

(** *** Calls that change the object, act on the outside, or raise *)

Definition state : Type := ImagePersistence * list effect.
Definition M (A : Type) : Type := state -> Py.outcome A * state.

Definition ret {A : Type} (a : A) : M A := fun st => (Py.Returned a, st).

Definition bind {A B : Type} (m : M A) (k : A -> M B) : M B :=
  fun st =>
    match m st with
    | (Py.Returned a, st') => k a st'
    | (Py.Raised e, st') => (Py.Raised e, st')
    end.

Definition raise {A : Type} (e : Py.exn) : M A :=
  fun st => (Py.Raised e, st).

Definition get_self : M ImagePersistence :=
  fun st => (Py.Returned (fst st), st).

Definition emit (e : effect) : M unit :=
  fun st => (Py.Returned tt, (fst st, snd st ++ [e])).

Declare Scope py_scope.
Delimit Scope py_scope with py.
Notation "x <- m ;; k" := (bind m (fun x => k))
  (at level 20, m at level 99, k at level 200, only parsing) : py_scope.
Notation "' pat <- m ;; k" := (bind m (fun x => let 'pat := x in k))
  (at level 20, pat pattern, m at level 99, k at level 200, only parsing)
  : py_scope.
Notation "m ;; k" := (bind m (fun _ => k))
  (at level 100, k at level 200, only parsing, right associativity)
  : py_scope.

(** [self.last_update = v]. *)
Definition with_last_update (self : ImagePersistence) (v : Q)
  : ImagePersistence :=
  {| db := db self; variable := variable self;
     environment := environment self;
     min_update_interval := min_update_interval self;
     last_update := v |}.

Definition set_last_update (v : Q) : M unit :=
  fun st => (Py.Returned tt, (with_last_update (fst st) v, snd st)).

Definition loginfo (text : string) : M unit := emit (LogInfo text).

(** [Image.fromstring(mode, size, data)]: the image, or the
    [ValueError] of PIL when it does not accept the data. *)
Definition Image_fromstring (mode : string) (size : Z * Z) (data : string)
    (accepted : bool) : M PILImage :=
  if accepted then ret (raw_image mode size data) else raise Py.ValueError.

(** [self.db.save(point)]: the request is made; the reply is the pair
    of identifier and revision, or an exception. *)
Definition db_save (point : Models.EnvironmentalDataPoint)
    (reply : option (string * string)) : M (string * string) :=
  (emit (DbSave point reply) ;;
   match reply with
   | Some id_rev => ret id_rev
   | None => raise (Py.ExternalError "couchdb")
   end)%py.

(** [requests.put(url, data=buf, headers=headers)]. *)
Definition requests_put (url : string) (buf : Buffer)
    (headers : list (string * string)) (reply : option Response)
  : M Response :=
  (emit (HttpPut url buf headers reply) ;;
   match reply with
   | Some res => ret res
   | None => raise (Py.ExternalError "requests")
   end)%py.

(** The test of the rate limit (the condition of the first [if]). *)
Definition rate_limited (self : ImagePersistence) (curr_time : Q) : bool :=
  Py.lt (curr_time - last_update self) (min_update_interval self).

(** [ImagePersistence.on_image]. *)
Definition on_image (item : ImageMsg) (env : Env) : M unit :=
  ((* Rate limit *)
   let curr_time := time_1 env in
   self <- get_self ;;
   if rate_limited self curr_time then ret tt
   else
     set_last_update curr_time ;;
     loginfo "Posting image" ;;
     match image_format_mapping !! encoding item with
     | None => raise Py.ValueError
     | Some image_format =>
         img <- Image_fromstring image_format (width item, height item)
                                 (data item) (image_ok env) ;;
         let point :=
           {| Models.environment := environment self;
              Models.variable := name (variable self);
              Models.is_desired := false;
              Models.value := None;
              Models.timestamp := time_2 env |} in
         '(point_id, point_rev) <- db_save point (save_reply env) ;;
         let url :=
           resource_url (db self) +:+ "/" +:+ point_id
             +:+ "/image?rev=" +:+ point_rev in
         let buf := PNG img in
         let headers := [("Content-Type", "image/png")] in
         res <- requests_put url buf headers (put_reply env) ;;
         if negb (status_code res =? 201)%Z then
           raise (Py.RuntimeError
                    ("Failed to post image to database: " +:+ content res))
         else ret tt
     end)%py.

(** Frames are handed to the callback one at a time; a callback that
    raises ends that call only.  The outcomes are returned in order. *)
Fixpoint run (frames : list (ImageMsg * Env)) (st : state)
  : list (Py.outcome unit) * state :=
  match frames with
  | [] => ([], st)
  | (item, env) :: frames =>
      let '(r, st) := on_image item env st in
      let '(rs, st) := run frames st in
      (r :: rs, st)
  end.

(** The documents the store holds after a history: those whose save
    was answered with an identifier and a revision. *)
Fixpoint saved (history : list effect)
  : list (string * string * Models.EnvironmentalDataPoint) :=
  match history with
  | [] => []
  | DbSave point (Some (point_id, point_rev)) :: history =>
      (point_id, point_rev, point) :: saved history
  | _ :: history => saved history
  end.

(** The frame got past the rate limit: its first action, the log line,
    was added to the history. *)
Definition posted (w : list effect) (after : Py.outcome unit * state) : Prop :=
  exists rest, snd (snd after) = w ++ LogInfo "Posting image" :: rest.

End Image.

(** ** Concrete controllers, frames and histories *)

Module Scenario.

(** The default configuration with unit gain, set point 5. *)
Definition default_at_5 : Pid.PID :=
  Pid.set_point_callback (Pid.init 1 0 0 1 (-1) 1000 0) 5.

(** Limits 2 and 5, a deadband of 3, set point 0. *)
Definition narrow_limits : Pid.PID :=
  Pid.set_point_callback (Pid.init 1 0 0 5 2 1000 3) 0.

(** Unit gain, limits -1 and 1, a deadband of 2, set point 1. *)
Definition wide_deadband : Pid.PID :=
  Pid.set_point_callback (Pid.init 1 0 0 1 (-1) 1000 2) 1.

(** Integral gain 1, windup limit 10, set point 5. *)
Definition integrating : Pid.PID :=
  Pid.set_point_callback (Pid.init 0 1 0 1 (-1) 10 0) 5.

(** A parameter server with the limits the wrong way round, a negative
    windup limit and a negative deadband. *)
Definition bad_server : gmap string Q :=
  <["~lower_limit" := 5]> (<["~upper_limit" := 1]>
    (<["~windup_limit" := -1]> (<["~deadband_width" := -1]> ∅))).

(** A camera sink with a minimum interval of 10 and nothing done yet. *)
Definition sink : Image.state :=
  (Image.init
     {| Image.resource_url := "http://localhost:5984/environmental_data_point" |}
     {| Image.name := "aerial_image" |} "environment_1" 10,
   []).

Definition created : Image.Response :=
  {| Image.status_code := 201; Image.content := "" |}.

Definition conflict : Image.Response :=
  {| Image.status_code := 409; Image.content := "conflict" |}.

(** An RGB frame arriving at time [t] that the database accepts, or
    whose attachment it answers with [reply]. *)
Definition frame_with (t : Q) (reply : option Image.Response)
  : Image.ImageMsg * Image.Env :=
  ({| Image.encoding := "rgb8"; Image.width := 1; Image.height := 1;
      Image.data := "abc" |},
   {| Image.time_1 := t; Image.time_2 := t;
      Image.image_ok := true;
      Image.save_reply := Some ("point", "1-a");
      Image.put_reply := reply |}).

Definition frame (t : Q) : Image.ImageMsg * Image.Env :=
  frame_with t (Some created).

(** A frame in an encoding the mapping does not have. *)
Definition mono_frame (t : Q) : Image.ImageMsg * Image.Env :=
  ({| Image.encoding := "mono8"; Image.width := 1; Image.height := 1;
      Image.data := "a" |},
   snd (frame t)).

(** An RGB frame of one pixel with two bytes of data, which PIL
    refuses. *)
Definition short_frame (t : Q) : Image.ImageMsg * Image.Env :=
  ({| Image.encoding := "rgb8"; Image.width := 1; Image.height := 1;
      Image.data := "ab" |},
   {| Image.time_1 := t; Image.time_2 := t;
      Image.image_ok := false;
      Image.save_reply := Some ("point", "1-a");
      Image.put_reply := Some created |}).

(** The times of capture of the documents a history has stored. *)
Definition stored_times (st : Image.state) : list Q :=
  map (fun d => Models.timestamp (snd d)) (Image.saved (snd st)).

End Scenario.

(** ** The words of the specification *)

Module Spec.

(** [clamp(x, lo, hi)]: [x] limited to the interval from [lo] to [hi]. *)
Definition clamp (x lo hi : Q) : Q :=
  if Py.lt x lo then lo else if Py.lt hi x then hi else x.

End Spec.

(** ** The rest of the two scripts *)

(** pid.py, after the construction of the controller: the names of the
    three topics. *)
Module PidNode.

(** The parameter [~variable] is absent ([None]) or names the variable;
    the result is [(pub_name, state_sub_name, desired_sub_name)]. *)
Definition topic_names (variable : option string) : string * string * string :=
  let pub_name := "cmd" in
  let state_sub_name := "state" in
  let desired_sub_name := "desired" in
  match variable with
  | Some variable =>
      let pub_name := "commanded/" +:+ variable in
      let state_sub_name := "measured/" +:+ variable in
      let desired_sub_name := "desired/" +:+ variable in
      (pub_name, state_sub_name, desired_sub_name)
  | None => (pub_name, state_sub_name, desired_sub_name)
  end.

(** The measured values among the messages of a run, in order. *)
Fixpoint measurements (ms : list Pid.msg) : list Q :=
  match ms with
  | [] => []
  | Pid.State v :: ms => v :: measurements ms
  | Pid.Desired _ :: ms => measurements ms
  end.

(** The set points among the messages of a run, in order. *)
Fixpoint desired_values (ms : list Pid.msg) : list Q :=
  match ms with
  | [] => []
  | Pid.Desired v :: ms => v :: desired_values ms
  | Pid.State _ :: ms => desired_values ms
  end.

(** The seven attributes [__init__] takes from its arguments. *)
Definition configuration (self : Pid.PID) : Q * Q * Q * Q * Q * Q * Q :=
  (Pid.Kp self, Pid.Ki self, Pid.Kd self, Pid.upper_limit self,
   Pid.lower_limit self, Pid.windup_limit self, Pid.deadband_width self).

End PidNode.

(** image_persistence.py, the script: one sink per camera module. *)
Module ImageNode.

(** Besides the exceptions of the two classes the script can meet a
    module document that the schema of [SoftwareModule] refuses and a
    missing key of a module. *)
Inductive error : Type :=
| Exn (e : Py.exn)
| MultipleInvalid
| KeyError (key : string).

Inductive result (A : Type) : Type :=
| Done (a : A)
| Failed (e : error).
Arguments Done {A} a.
Arguments Failed {A} e.

(** [not db_server]: [None] and the empty string are false. *)
Definition falsy (db_server : option string) : bool :=
  match db_server with
  | None => true
  | Some s => String.eqb s ""
  end.

(** The [try] around [rospy.get_param("~min_update_interval")]: the
    interval and the warnings logged. *)
Definition read_interval (params : gmap string Q) : Q * list string :=
  match params !! "~min_update_interval" with
  | Some min_update_interval => (min_update_interval, [])
  | None =>
      (3600,
       ["No minimum update interval specified for image persistence module"])
  end.

(** The dictionary comprehension.  Every document whose identifier
    does not start with an underscore is handed to [SoftwareModule]
    ([openag.models], not among the sources, hence an argument here):
    it returns the module, read by the script as a dictionary from
    field names to strings, or refuses the document ([None], the
    exception of the schema).  One refusal ends the script. *)
Definition modules_of
    (SoftwareModule : gmap string string -> option (gmap string string))
    (module_db : gmap string (gmap string string))
  : result (gmap string (gmap string string)) :=
  let documents :=
    filter (fun kv => String.prefix "_" (fst kv) = false) module_db in
  if decide (map_Forall (fun _ document => is_Some (SoftwareModule document))
                        documents)
  then Done (omap SoftwareModule documents)
  else Failed MultipleInvalid.

(** The body of the loop over [modules.items()]: the list
    [persistence_objs] after one module, each sink with its topic. *)
Definition add_camera (env_var_db : Image.Database)
    (AERIAL_IMAGE : Image.VarType) (min_update_interval : Q)
    (persistence_objs : list (string * Image.ImagePersistence))
    (module_id : string) (module_info : gmap string string)
  : result (list (string * Image.ImagePersistence)) :=
  if decide (module_info !! "namespace" = Some "cameras") then
    let topic := "/cameras/" +:+ module_id +:+ "/image_raw" in
    match module_info !! "environment" with
    | None => Failed (KeyError "environment")
    | Some environment =>
        Done (persistence_objs
                ++ [(topic,
                     Image.init env_var_db AERIAL_IMAGE environment
                                min_update_interval)])
    end
  else Done persistence_objs.

Fixpoint add_cameras (env_var_db : Image.Database)
    (AERIAL_IMAGE : Image.VarType) (min_update_interval : Q)
    (persistence_objs : list (string * Image.ImagePersistence))
    (items : list (string * gmap string string))
  : result (list (string * Image.ImagePersistence)) :=
  match items with
  | [] => Done persistence_objs
  | (module_id, module_info) :: items =>
      match add_camera env_var_db AERIAL_IMAGE min_update_interval
                       persistence_objs module_id module_info with
      | Done persistence_objs =>
          add_cameras env_var_db AERIAL_IMAGE min_update_interval
                      persistence_objs items
      | Failed e => Failed e
      end
  end.

(** The script up to [rospy.spin()].  [db_server] is the configured
    URL; [params] the private parameters of the node; [env_var_db] and
    [module_db] what the server holds under the two database names;
    [AERIAL_IMAGE] the variable type; [SoftwareModule] the constructor
    of the module class.  The result is the warnings logged and either
    [persistence_objs] or the exception that ended the script.  The
    order in which a dictionary hands out its items is that of
    [map_to_list]. *)
Definition main
    (SoftwareModule : gmap string string -> option (gmap string string))
    (db_server : option string) (params : gmap string Q)
    (env_var_db : Image.Database) (AERIAL_IMAGE : Image.VarType)
    (module_db : gmap string (gmap string string))
  : list string * result (list (string * Image.ImagePersistence)) :=
  if falsy db_server then
    ([], Failed (Exn (Py.RuntimeError "No database server specified")))
  else
    let '(min_update_interval, warnings) := read_interval params in
    match modules_of SoftwareModule module_db with
    | Failed e => (warnings, Failed e)
    | Done modules =>
        (warnings,
         add_cameras env_var_db AERIAL_IMAGE min_update_interval []
                     (map_to_list modules))
    end.

End ImageNode.

(** Module databases and frames used as instances below. *)
Module Setup.

(** The schema of the module class as far as the instances below need
    it: a document must have the key [type]; the module is the
    document. *)
Definition SoftwareModule (document : gmap string string)
  : option (gmap string string) :=
  match document !! "type" with
  | Some _ => Some document
  | None => None
  end.

Definition camera (environment : string) : gmap string string :=
  <["type" := "usb_cam:usb_cam_node"]>
    (<["namespace" := "cameras"]> (<["environment" := environment]> ∅)).

Definition sensor : gmap string string :=
  <["type" := "openag_brain:sensor_persistence.py"]>
    (<["namespace" := "sensors"]> (<["environment" := "environment_1"]> ∅)).

Definition lost_camera : gmap string string :=
  <["type" := "usb_cam:usb_cam_node"]> (<["namespace" := "cameras"]> ∅).

Definition two_cameras : gmap string (gmap string string) :=
  <["cam_1" := camera "environment_1"]>
    (<["cam_2" := camera "environment_2"]>
       (<["_design/openag" := camera "environment_1"]>
          (<["dht22_1" := sensor]> ∅))).

Definition one_lost : gmap string (gmap string string) :=
  <["cam_1" := lost_camera]> ∅.

(** Unit gain, limits -10 and 10, a deadband of 2, set point 5. *)
Definition banded : Pid.PID :=
  Pid.set_point_callback (Pid.init 1 0 0 10 (-10) 1000 2) 5.

(** Gains 2, 1 and 3, limits -100 and 100, set point 5. *)
Definition three_terms : Pid.PID :=
  Pid.set_point_callback (Pid.init 2 1 3 100 (-100) 1000 0) 5.

(** Limits 5 (lower) and 1 (upper), set point 0. *)
Definition inverted : Pid.PID :=
  Pid.set_point_callback (Pid.init 1 0 0 1 5 1000 0) 0.

(** Integral gain 1, windup limit -3, set point 5. *)
Definition negative_windup : Pid.PID :=
  Pid.set_point_callback (Pid.init 0 1 0 1 (-1) (-3) 0) 5.

(** The document and the upload of one call of [on_image], as the call
    writes them. *)
Definition point_of (self : Image.ImagePersistence) (env : Image.Env)
  : Models.EnvironmentalDataPoint :=
  {| Models.environment := Image.environment self;
     Models.variable := Image.name (Image.variable self);
     Models.is_desired := false;
     Models.value := None;
     Models.timestamp := Image.time_2 env |}.

Definition upload_of (self : Image.ImagePersistence) (item : Image.ImageMsg)
    (env : Image.Env) (image_format point_id point_rev : string)
  : Image.effect :=
  Image.HttpPut
    (Image.resource_url (Image.db self) +:+ "/" +:+ point_id
       +:+ "/image?rev=" +:+ point_rev)
    (Image.PNG (Image.raw_image image_format
                  (Image.width item, Image.height item) (Image.data item)))
    [("Content-Type", "image/png")] (Image.put_reply env).

(** A document of the sink [self]: no value, not a set point, the
    environment and the variable of the sink. *)
Definition image_point (self : Image.ImagePersistence)
    (d : string * string * Models.EnvironmentalDataPoint) : Prop :=
  Models.value (snd d) = None
  /\ Models.is_desired (snd d) = false
  /\ Models.environment (snd d) = Image.environment self
  /\ Models.variable (snd d) = Image.name (Image.variable self).

Definition env_var_db : Image.Database :=
  {| Image.resource_url := "http://localhost:5984/environmental_data_point" |}.

Definition AERIAL_IMAGE : Image.VarType := {| Image.name := "aerial_image" |}.

(** The sinks of [two_cameras] with the default interval. *)
Definition two_sinks : list (string * Image.ImagePersistence) :=
  [("/cameras/cam_1/image_raw",
    Image.init env_var_db AERIAL_IMAGE "environment_1" 3600);
   ("/cameras/cam_2/image_raw",
    Image.init env_var_db AERIAL_IMAGE "environment_2" 3600)].

End Setup.

(** ** Facts about the builtins *)

Section PyFacts.

Lemma lt_true (a b : Q) : Py.lt a b = true <-> a < b.
Proof.
  unfold Py.lt. rewrite Qlt_alt.
  destruct (a ?= b); split; intros H; congruence.
Qed.

Lemma lt_false (a b : Q) : Py.lt a b = false <-> b <= a.
Proof.
  split.
  - intros H. apply Qnot_lt_le. intros Hlt.
    apply lt_true in Hlt. congruence.
  - intros H. destruct (Py.lt a b) eqn:E; [|reflexivity].
    apply lt_true in E. lra.
Qed.

Lemma min_cases (a b : Q) :
  (b < a /\ Py.min a b = b) \/ (a <= b /\ Py.min a b = a).
Proof.
  unfold Py.min. destruct (Py.lt b a) eqn:E.
  - left. apply lt_true in E. auto.
  - right. apply lt_false in E. auto.
Qed.

Lemma max_cases (a b : Q) :
  (a < b /\ Py.max a b = b) \/ (b <= a /\ Py.max a b = a).
Proof.
  unfold Py.max. destruct (Py.lt a b) eqn:E.
  - left. apply lt_true in E. auto.
  - right. apply lt_false in E. auto.
Qed.

End PyFacts.

(** Case analysis on every [min], [max] and comparison in sight. *)
Ltac py_cases :=
  repeat match goal with
    | |- context [Py.min ?a ?b] =>
        let H := fresh "Hmin" in
        destruct (min_cases a b) as [[? H]|[? H]]; rewrite H in *
    | |- context [Py.max ?a ?b] =>
        let H := fresh "Hmax" in
        destruct (max_cases a b) as [[? H]|[? H]]; rewrite H in *
    | |- context [Py.lt ?a ?b] =>
        let H := fresh "Hlt" in
        destruct (Py.lt a b) eqn:H;
        [apply lt_true in H | apply lt_false in H]
    end.

(** ** The controller *)

Section PidFacts.
Import Pid.

(** The attributes left by one [update] when a set point is present. *)
Lemma update_state (self : PID) (state sp : Q) :
  set_point self = Some sp ->
  snd (update self state) =
    {| Kp := Kp self; Ki := Ki self; Kd := Kd self;
       upper_limit := upper_limit self; lower_limit := lower_limit self;
       windup_limit := windup_limit self;
       deadband_width := deadband_width self;
       set_point := Some sp;
       last_error := sp - state;
       integrator :=
         Py.max (- windup_limit self)
                (Py.min (windup_limit self)
                        (integrator self + (sp - state))) |}.
Proof.
  intros Hsp. unfold update. rewrite Hsp.
  match goal with |- context [if ?c then _ else _] => destruct c end;
    unfold set_integrator, set_last_error; cbn; rewrite Hsp; reflexivity.
Qed.

Lemma update_unset (self : PID) (state : Q) :
  set_point self = None -> update self state = (None, self).
Proof. intros H. unfold update. now rewrite H. Qed.

Lemma update_result (self : PID) (state sp : Q) :
  set_point self = Some sp ->
  fst (update self state) =
    if Py.lt (Py.abs (res_limited self sp state)) (deadband_width self)
    then Some 0 else Some (res_limited self sp state).
Proof.
  intros Hsp. unfold update. rewrite Hsp.
  unfold res_limited, res_raw, set_integrator, set_last_error. cbn.
  match goal with |- context [if ?c then _ else _] => destruct c end;
    reflexivity.
Qed.

Lemma res_limited_bounds (self : PID) (sp state : Q) :
  lower_limit self <= upper_limit self ->
  lower_limit self <= res_limited self sp state <= upper_limit self.
Proof.
  intros Hlim. unfold res_limited.
  generalize (res_raw self sp state). intros r.
  py_cases; lra.
Qed.

Lemma updates_unset (self : PID) (states : list Q) :
  set_point self = None ->
  updates self states = (map (fun _ => None) states, self).
Proof.
  intros Hsp. induction states as [|state states IH]; cbn.
  - reflexivity.
  - rewrite (update_unset _ _ Hsp), IH. reflexivity.
Qed.

Lemma spin_unset (self : PID) (states : list Q) :
  set_point self = None ->
  spin self (map State states) = ([], self).
Proof.
  intros Hsp. induction states as [|state states IH]; cbn.
  - reflexivity.
  - unfold state_callback. rewrite (update_unset _ _ Hsp), IH. reflexivity.
Qed.

(** C1, as amended.  With [lower_limit <= upper_limit], a number
    returned by [update] is the limited value, which lies between the
    limits, or the exact [0] that the deadband puts in its place; it
    lies between the limits whenever [0] does or the deadband is not
    positive.  Nothing is assumed about the state of the controller. *)
Theorem update_output_limited_or_zero (self : PID) (state out : Q)
    (Hlim : lower_limit self <= upper_limit self)
    (Hout : fst (update self state) = Some out) :
  (lower_limit self <= out <= upper_limit self \/ out = 0)
  /\ (lower_limit self <= 0 <= upper_limit self \/ deadband_width self <= 0 ->
      lower_limit self <= out <= upper_limit self).
Proof.
  destruct (set_point self) as [sp|] eqn:Hsp.
  2:{ rewrite (update_unset _ _ Hsp) in Hout. discriminate. }
  rewrite (update_result _ _ _ Hsp) in Hout.
  pose proof (res_limited_bounds self sp state Hlim) as Hb.
  destruct (Py.lt _ _) eqn:Hdb in Hout; inversion Hout; subst out; clear Hout.
  - split; [right; reflexivity|].
    intros [H0|Hd]; [exact H0|].
    apply lt_true in Hdb. unfold Py.abs in Hdb.
    pose proof (Qabs_nonneg (res_limited self sp state)). lra.
  - split; [left|intros _]; exact Hb.
Qed.

Lemma update_output_limited_or_zero_witness :
  lower_limit Scenario.default_at_5 <= upper_limit Scenario.default_at_5
  /\ fst (update Scenario.default_at_5 3) = Some 1
  /\ (lower_limit Scenario.default_at_5 <= 1 <= upper_limit Scenario.default_at_5 \/ 1 = 0).
Proof.
  assert (Hlim : lower_limit Scenario.default_at_5 <= upper_limit Scenario.default_at_5)
    by (vm_compute; discriminate).
  assert (Hout : fst (update Scenario.default_at_5 3) = Some 1) by reflexivity.
  split; [exact Hlim|]. split; [exact Hout|].
  exact (proj1 (update_output_limited_or_zero Scenario.default_at_5 3 1 Hlim Hout)).
Defined.

(** C1 as stated fails: limits 2 and 5, a deadband of 3, set point and
    measurement both 0.  The limited value is 2, the deadband turns it
    into 0, and 0 is below the lower limit. *)
Lemma update_output_outside_limits :
  lower_limit Scenario.narrow_limits <= upper_limit Scenario.narrow_limits
  /\ fst (update Scenario.narrow_limits 0) = Some 0
  /\ ~ (lower_limit Scenario.narrow_limits <= 0 <= upper_limit Scenario.narrow_limits).
Proof.
  split; [vm_compute; discriminate|]. split; [reflexivity|].
  intros [H _]. vm_compute in H. apply H. reflexivity.
Qed.

(** C5.  Before any message on [desired], every [update] returns
    [None], whatever the configuration and the measured values; the
    object is not changed and nothing is published. *)
Theorem no_set_point_no_output
    (Kp Ki Kd upper lower windup deadband : Q) (states : list Q) :
  let pid := init Kp Ki Kd upper lower windup deadband in
  fst (updates pid states) = map (fun _ => None) states
  /\ Forall (fun r => r = None /\ forall x : Q, r <> Some x)
            (fst (updates pid states))
  /\ snd (updates pid states) = pid
  /\ spin pid (map State states) = ([], pid).
Proof.
  intros pid.
  assert (Hsp : set_point pid = None) by reflexivity.
  rewrite (updates_unset _ states Hsp), (spin_unset _ states Hsp). cbn.
  repeat split.
  induction states as [|state states IH]; constructor.
  - split; [reflexivity|intros x; discriminate].
  - exact IH.
Qed.

(** C6.  With a set point present and the limited value inside the
    deadband, [update] returns the number 0 and the node publishes it;
    without a set point [update] returns [None] and nothing is
    published.  The deadband is met with a raw value different from 0:
    gain 1, set point 1, measurement 0, deadband 2. *)
Theorem deadband_returns_zero (self : PID) (state sp : Q)
    (Hsp : set_point self = Some sp)
    (Hdb : Qabs (res_limited self sp state) < deadband_width self) :
  fst (update self state) = Some 0
  /\ fst (update self state) <> None
  /\ fst (state_callback self state) = [0]
  /\ (forall unset : PID, set_point unset = None ->
        fst (update unset state) = None
        /\ fst (state_callback unset state) = [])
  /\ (~ res_raw Scenario.wide_deadband 1 0 == 0
      /\ fst (update Scenario.wide_deadband 0) = Some 0).
Proof.
  assert (H0 : fst (update self state) = Some 0).
  { rewrite (update_result _ _ _ Hsp).
    apply lt_true in Hdb. unfold Py.abs. now rewrite Hdb. }
  split; [exact H0|]. split; [rewrite H0; discriminate|].
  split.
  { unfold state_callback. destruct (update self state) as [cmd pid].
    cbn in H0. subst cmd. reflexivity. }
  split.
  { intros unset Hun. unfold state_callback.
    rewrite (update_unset _ _ Hun). split; reflexivity. }
  split; [vm_compute; discriminate|reflexivity].
Qed.

Lemma deadband_returns_zero_witness :
  set_point Scenario.wide_deadband = Some 1
  /\ Qabs (res_limited Scenario.wide_deadband 1 0)
     < deadband_width Scenario.wide_deadband
  /\ fst (update Scenario.wide_deadband 0) = Some 0
  /\ fst (state_callback Scenario.wide_deadband 0) = [0].
Proof.
  assert (Hsp : set_point Scenario.wide_deadband = Some 1) by reflexivity.
  assert (Hdb : Qabs (res_limited Scenario.wide_deadband 1 0)
                < deadband_width Scenario.wide_deadband)
    by (vm_compute; reflexivity).
  pose proof (deadband_returns_zero Scenario.wide_deadband 0 1 Hsp Hdb)
    as [H0 [_ [Hpub _]]].
  split; [exact Hsp|]. split; [exact Hdb|]. split; [exact H0|exact Hpub].
Defined.

(** C9.  [set_point_callback] assigns [set_point] and nothing else:
    gains, limits, [last_error] and [integrator] are those of before.
    The next [update] therefore takes its derivative term from the
    error left under the old set point and adds the new error to the
    integrator left under it. *)
Theorem set_point_callback_frame (pid : PID) (v state : Q) :
  let pid' := set_point_callback pid v in
  set_point pid' = Some v
  /\ last_error pid' = last_error pid
  /\ integrator pid' = integrator pid
  /\ (Kp pid', Ki pid', Kd pid') = (Kp pid, Ki pid, Kd pid)
  /\ (upper_limit pid', lower_limit pid', windup_limit pid', deadband_width pid')
     = (upper_limit pid, lower_limit pid, windup_limit pid, deadband_width pid)
  /\ integrator (snd (update pid' state))
     = Py.max (- windup_limit pid)
              (Py.min (windup_limit pid) (integrator pid + (v - state)))
  /\ last_error (snd (update pid' state)) = v - state
  /\ res_raw pid' v state
     = Kp pid * (v - state)
       + Ki pid * integrator (snd (update pid' state))
       + Kd pid * ((v - state) - last_error pid)
  /\ fst (update pid' state)
     = if Py.lt (Py.abs (res_limited pid' v state)) (deadband_width pid)
       then Some 0 else Some (res_limited pid' v state).
Proof.
  intros pid'.
  assert (Hsp : set_point pid' = Some v) by reflexivity.
  rewrite (update_state _ state _ Hsp), (update_result _ state _ Hsp).
  repeat split.
Qed.

(** *** The integrator *)

(** One accumulate-then-limit step on the integrator. *)
Lemma windup_step_clamp (w x : Q) :
  0 <= w ->
  Py.max (- w) (Py.min w x) == Spec.clamp x (- w) w.
Proof.
  intros Hw. unfold Spec.clamp. py_cases; lra.
Qed.

Lemma windup_step_bounds (w x : Q) :
  0 <= w -> - w <= Py.max (- w) (Py.min w x) <= w.
Proof. intros Hw. py_cases; lra. Qed.

Lemma drive_snoc (self : PID) (state : Q) (n : nat) :
  drive self state (S n) = snd (update (drive self state n) state).
Proof.
  revert self. induction n as [|n IH]; intros self.
  - reflexivity.
  - change (drive self state (S (S n)))
      with (drive (snd (update self state)) state (S n)).
    rewrite IH. reflexivity.
Qed.

Lemma drive_config (self : PID) (state sp : Q) (n : nat) :
  set_point self = Some sp ->
  set_point (drive self state n) = Some sp
  /\ windup_limit (drive self state n) = windup_limit self.
Proof.
  intros Hsp. induction n as [|n [IH1 IH2]].
  - auto.
  - rewrite drive_snoc, (update_state _ _ _ IH1). cbn. auto.
Qed.

Lemma drive_integrator (self : PID) (state sp : Q) (n : nat) :
  set_point self = Some sp ->
  integrator (drive self state (S n)) =
    Py.max (- windup_limit self)
           (Py.min (windup_limit self)
                   (integrator (drive self state n) + (sp - state))).
Proof.
  intros Hsp. destruct (drive_config self state sp n Hsp) as [H1 H2].
  rewrite drive_snoc, (update_state _ _ _ H1). cbn. rewrite H2. reflexivity.
Qed.

Lemma drive_bounded (self : PID) (state sp : Q) (n : nat) :
  set_point self = Some sp -> 0 <= windup_limit self ->
  - windup_limit self <= integrator (drive self state (S n)) <= windup_limit self.
Proof.
  intros Hsp Hw. rewrite (drive_integrator _ _ _ _ Hsp).
  apply windup_step_bounds, Hw.
Qed.

(** One call under an error of at least twice the limit, from an
    integrator within the limit. *)
Lemma large_step_high (w i e : Q) :
  0 <= w -> - w <= i -> 2 * w <= e ->
  Py.max (- w) (Py.min w (i + e)) == w.
Proof. intros Hw Hi He. py_cases; lra. Qed.

Lemma large_step_low (w i e : Q) :
  0 <= w -> i <= w -> e <= - (2 * w) ->
  Py.max (- w) (Py.min w (i + e)) == - w.
Proof. intros Hw Hi He. py_cases; lra. Qed.

(** One call on an integrator at a limit, under an error that pushes
    against that limit. *)
Lemma stay_step_high (w i e : Q) :
  0 <= w -> i == w -> 0 <= e -> Py.max (- w) (Py.min w (i + e)) == w.
Proof. intros Hw Hi He. py_cases; lra. Qed.

Lemma stay_step_low (w i e : Q) :
  0 <= w -> i == - w -> e <= 0 -> Py.max (- w) (Py.min w (i + e)) == - w.
Proof. intros Hw Hi He. py_cases; lra. Qed.

Lemma drive_stays_high (self : PID) (state sp : Q) (m : nat) :
  set_point self = Some sp -> 0 <= windup_limit self -> 0 <= sp - state ->
  integrator self == windup_limit self ->
  integrator (drive self state m) == windup_limit self.
Proof.
  intros Hsp Hw He Hi. induction m as [|m IH]; [exact Hi|].
  rewrite (drive_integrator _ _ _ _ Hsp).
  apply stay_step_high; assumption.
Qed.

Lemma drive_stays_low (self : PID) (state sp : Q) (m : nat) :
  set_point self = Some sp -> 0 <= windup_limit self -> sp - state <= 0 ->
  integrator self == - windup_limit self ->
  integrator (drive self state m) == - windup_limit self.
Proof.
  intros Hsp Hw He Hi. induction m as [|m IH]; [exact Hi|].
  rewrite (drive_integrator _ _ _ _ Hsp).
  apply stay_step_low; assumption.
Qed.

(** Under a constant error of at least twice the limit the integrator
    is at the limit after every call that starts within the limit. *)
Lemma drive_large_high (self : PID) (state sp : Q) (m : nat) :
  set_point self = Some sp -> 0 <= windup_limit self ->
  2 * windup_limit self <= sp - state ->
  - windup_limit self <= integrator (drive self state m) ->
  integrator (drive self state (S m)) == windup_limit self.
Proof.
  intros Hsp Hw He Hi. rewrite (drive_integrator _ _ _ _ Hsp).
  apply large_step_high; assumption.
Qed.

Lemma drive_large_low (self : PID) (state sp : Q) (m : nat) :
  set_point self = Some sp -> 0 <= windup_limit self ->
  sp - state <= - (2 * windup_limit self) ->
  integrator (drive self state m) <= windup_limit self ->
  integrator (drive self state (S m)) == - windup_limit self.
Proof.
  intros Hsp Hw He Hi. rewrite (drive_integrator _ _ _ _ Hsp).
  apply large_step_low; assumption.
Qed.

(** C4.  With a set point present, every [update] adds the whole error
    to the integrator and then limits the sum, whatever the output
    does; for [0 <= windup_limit] that is [clamp(integrator + error,
    -windup_limit, windup_limit)].  The integrator then stays within
    the limit after every call.  Under a constant error of at least
    twice the limit in size it is at the limit of the error's sign
    after the first call that starts within the limit, hence from the
    second call on whatever the start, and every later call leaves it
    there; once at a limit it stays there as long as the error pushes
    against that limit. *)
Theorem integrator_accumulate_then_clamp (self : PID) (state sp : Q)
    (Hsp : set_point self = Some sp) :
  let w := windup_limit self in
  let error := sp - state in
  integrator (snd (update self state))
    = Py.max (- w) (Py.min w (integrator self + error))
  /\ (0 <= w ->
      integrator (snd (update self state))
        == Spec.clamp (integrator self + error) (- w) w
      /\ Qabs (integrator (snd (update self state))) <= w
      /\ (forall n, Qabs (integrator (drive self state (S n))) <= w)
      /\ (2 * w <= error -> forall m, (2 <= m)%nat ->
            integrator (drive self state m) == w)
      /\ (error <= - (2 * w) -> forall m, (2 <= m)%nat ->
            integrator (drive self state m) == - w)
      /\ (Qabs (integrator self) <= w -> 2 * w <= error ->
            forall m, (1 <= m)%nat -> integrator (drive self state m) == w)
      /\ (Qabs (integrator self) <= w -> error <= - (2 * w) ->
            forall m, (1 <= m)%nat -> integrator (drive self state m) == - w)
      /\ (integrator self == w -> 0 <= error ->
            integrator (snd (update self state)) == w)
      /\ (integrator self == - w -> error <= 0 ->
            integrator (snd (update self state)) == - w)
      /\ (integrator self == w -> 0 <= error ->
            forall m, integrator (drive self state m) == w)
      /\ (integrator self == - w -> error <= 0 ->
            forall m, integrator (drive self state m) == - w)).
Proof.
  intros w error. subst w error.
  set (w := windup_limit self) in *. set (error := sp - state) in *.
  assert (Hstep : integrator (snd (update self state))
                  = Py.max (- w) (Py.min w (integrator self + error))).
  { rewrite (update_state _ _ _ Hsp). reflexivity. }
  split; [exact Hstep|]. intros Hw.
  split; [rewrite Hstep; apply windup_step_clamp, Hw|].
  split; [rewrite Hstep; apply Qabs_Qle_condition, windup_step_bounds, Hw|].
  split.
  { intros n. apply Qabs_Qle_condition.
    apply (drive_bounded self state sp n Hsp Hw). }
  split.
  { intros He m Hm. destruct m as [|[|m]]; [lia|lia|].
    apply (drive_large_high self state sp (S m) Hsp Hw He).
    apply (drive_bounded self state sp m Hsp Hw). }
  split.
  { intros He m Hm. destruct m as [|[|m]]; [lia|lia|].
    apply (drive_large_low self state sp (S m) Hsp Hw He).
    apply (drive_bounded self state sp m Hsp Hw). }
  split.
  { intros Hi He m Hm. apply Qabs_Qle_condition in Hi.
    destruct m as [|[|m]]; [lia| |].
    - apply (drive_large_high self state sp 0 Hsp Hw He). apply Hi.
    - apply (drive_large_high self state sp (S m) Hsp Hw He).
      apply (drive_bounded self state sp m Hsp Hw). }
  split.
  { intros Hi He m Hm. apply Qabs_Qle_condition in Hi.
    destruct m as [|[|m]]; [lia| |].
    - apply (drive_large_low self state sp 0 Hsp Hw He). apply Hi.
    - apply (drive_large_low self state sp (S m) Hsp Hw He).
      apply (drive_bounded self state sp m Hsp Hw). }
  split; [intros Hi He; rewrite Hstep; apply stay_step_high; assumption|].
  split; [intros Hi He; rewrite Hstep; apply stay_step_low; assumption|].
  split.
  - intros Hi He m. apply (drive_stays_high self state sp m Hsp Hw He Hi).
  - intros Hi He m. apply (drive_stays_low self state sp m Hsp Hw He Hi).
Qed.

(** *** Start-up *)

Lemma load_loop_lookup (server : gmap string Q) (names : list string)
    (acc : gmap string Q) (name : string) :
  foldl (fun param_values param_name =>
           match server !! ("~" +:+ param_name) with
           | Some v => <[param_name := v]> param_values
           | None => param_values
           end) acc names !! name
  = match (if decide (name ∈ names) then server !! ("~" +:+ name) else None) with
    | Some v => Some v
    | None => acc !! name
    end.
Proof.
  revert acc. induction names as [|n ns IH]; intros acc; cbn [foldl].
  - rewrite decide_False by (apply not_elem_of_nil). reflexivity.
  - rewrite IH. clear IH.
    destruct (decide (name = n)) as [->|Hne].
    + rewrite (decide_True (P := n ∈ n :: ns)) by (apply list_elem_of_here).
      destruct (decide (n ∈ ns)); destruct (server !! ("~" +:+ n)) eqn:E;
        try reflexivity.
      apply lookup_insert_eq.
    + assert (Hiff : name ∈ n :: ns <-> name ∈ ns).
      { rewrite elem_of_cons. tauto. }
      assert (Hacc : match server !! ("~" +:+ n) with
                     | Some v => <[n := v]> acc
                     | None => acc
                     end !! name = acc !! name).
      { destruct (server !! ("~" +:+ n)); [|reflexivity].
        apply lookup_insert_ne. congruence. }
      rewrite Hacc.
      destruct (decide (name ∈ ns)) as [Hin|Hin].
      * rewrite decide_True by (apply Hiff, Hin). reflexivity.
      * rewrite decide_False by (rewrite Hiff; exact Hin). reflexivity.
Qed.

Lemma load_params_lookup (server : gmap string Q) (name : string) :
  name ∈ param_names ->
  load_params server !! name = server !! ("~" +:+ name).
Proof.
  intros Hin. unfold load_params.
  etransitivity; [apply load_loop_lookup|].
  rewrite decide_True by exact Hin.
  destruct (server !! ("~" +:+ name)); [reflexivity|apply lookup_empty].
Qed.

(** C3, as amended.  Nothing checks the configuration.  Outside the
    global namespace the start-up constructs the controller from
    whatever the parameter server holds, each absent parameter taking
    its default; limits in the wrong order, a negative windup limit and
    a negative deadband are stored as they are. *)
Theorem startup_accepts_configuration (namespace : string)
    (server : gmap string Q) (Hns : namespace <> "/") :
  exists pid : PID,
    startup namespace server = Py.Returned pid
    /\ lower_limit pid = default (-1) (server !! "~lower_limit")
    /\ upper_limit pid = default 1 (server !! "~upper_limit")
    /\ windup_limit pid = default 1000 (server !! "~windup_limit")
    /\ deadband_width pid = default 0 (server !! "~deadband_width")
    /\ Kp pid = default 0 (server !! "~Kp")
    /\ Ki pid = default 0 (server !! "~Ki")
    /\ Kd pid = default 0 (server !! "~Kd")
    /\ set_point pid = None.
Proof.
  unfold startup. apply String.eqb_neq in Hns. rewrite Hns.
  eexists. split; [reflexivity|].
  unfold init_kwargs, init, kwarg.
  rewrite !load_params_lookup by (unfold param_names; set_solver).
  repeat split.
Qed.

Lemma startup_accepts_configuration_witness :
  "/environment_1/" <> "/"
  /\ exists pid : PID,
       startup "/environment_1/" Scenario.bad_server = Py.Returned pid
       /\ lower_limit pid = 5 /\ upper_limit pid = 1
       /\ windup_limit pid = -1 /\ deadband_width pid = -1.
Proof.
  assert (Hns : "/environment_1/" <> "/") by discriminate.
  split; [exact Hns|].
  destruct (startup_accepts_configuration "/environment_1/"
              Scenario.bad_server Hns)
    as [pid [H [Hl [Hu [Hw [Hd _]]]]]].
  exists pid. repeat split; assumption.
Defined.

(** C3 as stated fails: with limits 5 (lower) and 1 (upper), windup
    limit -1 and deadband -1 the start-up returns a controller. *)
Lemma startup_takes_invalid_limits :
  exists pid : PID,
    startup "/environment_1/" Scenario.bad_server = Py.Returned pid
    /\ upper_limit pid < lower_limit pid
    /\ windup_limit pid < 0
    /\ deadband_width pid < 0.
Proof.
  eexists. split; [vm_compute; reflexivity|].
  repeat split.
Qed.

Lemma integrator_accumulate_then_clamp_witness :
  set_point Scenario.integrating = Some 5
  /\ 0 <= windup_limit Scenario.integrating
  /\ Qabs (integrator Scenario.integrating) <= windup_limit Scenario.integrating
  /\ 2 * windup_limit Scenario.integrating <= 5 - (-15)
  /\ integrator (snd (update Scenario.integrating (-15)))
     == Spec.clamp (integrator Scenario.integrating + (5 - (-15))) (- (10)) 10
  /\ integrator (drive Scenario.integrating (-15) 1) == 10.
Proof.
  assert (Hsp : set_point Scenario.integrating = Some 5) by reflexivity.
  assert (Hw : 0 <= windup_limit Scenario.integrating)
    by (vm_compute; discriminate).
  assert (Hi : Qabs (integrator Scenario.integrating)
               <= windup_limit Scenario.integrating)
    by (vm_compute; discriminate).
  assert (He : 2 * windup_limit Scenario.integrating <= 5 - (-15))
    by (vm_compute; discriminate).
  destruct (integrator_accumulate_then_clamp Scenario.integrating (-15) 5 Hsp)
    as [_ Hall].
  destruct (Hall Hw) as [H1 [_ [_ [_ [_ [H7 _]]]]]].
  split; [exact Hsp|]. split; [exact Hw|]. split; [exact Hi|].
  split; [exact He|]. split; [exact H1|].
  apply (H7 Hi He 1%nat). lia.
Defined.

End PidFacts.

(** ** The image sink *)

Section ImageFacts.
Import Image.

Lemma rate_limited_true (self : ImagePersistence) (curr_time : Q) :
  rate_limited self curr_time = true
  <-> curr_time - last_update self < min_update_interval self.
Proof. apply lt_true. Qed.

Lemma rate_limited_false (self : ImagePersistence) (curr_time : Q) :
  rate_limited self curr_time = false
  <-> min_update_interval self <= curr_time - last_update self.
Proof. apply lt_false. Qed.

(** A frame inside the interval: the bare [return]. *)
Lemma on_image_limited (self : ImagePersistence) (w : list effect)
    (item : ImageMsg) (env : Env) :
  rate_limited self (time_1 env) = true ->
  on_image item env (self, w) = (Py.Returned tt, (self, w)).
Proof.
  intros H. unfold on_image, bind, get_self. cbn. rewrite H. reflexivity.
Qed.

(** A frame outside the interval: the rest of the body, statement by
    statement. *)
Lemma on_image_passed (self : ImagePersistence) (w : list effect)
    (item : ImageMsg) (env : Env) :
  rate_limited self (time_1 env) = false ->
  on_image item env (self, w) =
    let self' := with_last_update self (time_1 env) in
    let w1 := w ++ [LogInfo "Posting image"] in
    match image_format_mapping !! encoding item with
    | None => (Py.Raised Py.ValueError, (self', w1))
    | Some image_format =>
        if negb (image_ok env) then (Py.Raised Py.ValueError, (self', w1))
        else
        let point :=
          {| Models.environment := environment self;
             Models.variable := name (variable self);
             Models.is_desired := false;
             Models.value := None;
             Models.timestamp := time_2 env |} in
        let w2 := w1 ++ [DbSave point (save_reply env)] in
        match save_reply env with
        | None => (Py.Raised (Py.ExternalError "couchdb"), (self', w2))
        | Some (point_id, point_rev) =>
            let w3 :=
              w2 ++ [HttpPut (resource_url (db self) +:+ "/" +:+ point_id
                                +:+ "/image?rev=" +:+ point_rev)
                       (PNG (raw_image image_format
                               (width item, height item) (data item)))
                       [("Content-Type", "image/png")] (put_reply env)] in
            match put_reply env with
            | None => (Py.Raised (Py.ExternalError "requests"), (self', w3))
            | Some res =>
                if (status_code res =? 201)%Z then (Py.Returned tt, (self', w3))
                else (Py.Raised (Py.RuntimeError
                        ("Failed to post image to database: " +:+ content res)),
                      (self', w3))
            end
        end
    end.
Proof.
  intros H. unfold on_image, bind, get_self. cbn. rewrite H.
  unfold set_last_update, loginfo, emit. cbn.
  destruct (image_format_mapping !! encoding item) as [image_format|];
    [|reflexivity].
  unfold Image_fromstring.
  destruct (image_ok env); [|reflexivity].
  unfold db_save, requests_put, bind, emit, raise, ret. cbn.
  destruct (save_reply env) as [[point_id point_rev]|]; [|reflexivity]. cbn.
  destruct (put_reply env) as [res|]; [|reflexivity]. cbn.
  destruct (status_code res =? 201)%Z; reflexivity.
Qed.

Lemma saved_app (h1 h2 : list effect) :
  saved (h1 ++ h2) = saved h1 ++ saved h2.
Proof.
  induction h1 as [|e h1 IH]; [reflexivity|].
  destruct e as [text|point [[point_id point_rev]|]|url body headers reply];
    cbn; rewrite IH; reflexivity.
Qed.

(** Whatever happens after the rate limit, the object is left with the
    arrival time in [last_update] and the other attributes as before. *)
Lemma on_image_passed_self (self : ImagePersistence) (w : list effect)
    (item : ImageMsg) (env : Env) :
  rate_limited self (time_1 env) = false ->
  fst (snd (on_image item env (self, w))) = with_last_update self (time_1 env).
Proof.
  intros H. rewrite (on_image_passed _ _ _ _ H). cbn.
  destruct (image_format_mapping !! encoding item); [|reflexivity].
  destruct (image_ok env); [|reflexivity]. cbn.
  destruct (save_reply env) as [[? ?]|]; [|reflexivity].
  destruct (put_reply env) as [res|]; [|reflexivity].
  destruct (status_code res =? 201)%Z; reflexivity.
Qed.

(** Frames that all fall inside the interval change nothing. *)
Lemma run_limited (self : ImagePersistence) (w : list effect)
    (frames : list (ImageMsg * Env)) :
  Forall (fun f => rate_limited self (time_1 (snd f)) = true) frames ->
  run frames (self, w) = (map (fun _ => Py.Returned tt) frames, (self, w)).
Proof.
  induction 1 as [|[item env] frames Hf _ IH]; [reflexivity|].
  cbn in Hf. cbn [run map]. rewrite (on_image_limited _ _ _ _ Hf), IH.
  reflexivity.
Qed.

Lemma on_image_passed_posted (self : ImagePersistence) (w : list effect)
    (item : ImageMsg) (env : Env) :
  rate_limited self (time_1 env) = false ->
  posted w (on_image item env (self, w)).
Proof.
  intros H. unfold posted. rewrite (on_image_passed _ _ _ _ H). cbn.
  destruct (image_format_mapping !! encoding item); [|eexists; reflexivity].
  destruct (image_ok env); [|eexists; reflexivity]. cbn.
  destruct (save_reply env) as [[? ?]|];
    [|eexists; cbn; rewrite <- app_assoc; reflexivity].
  destruct (put_reply env) as [res|];
    [destruct (status_code res =? 201)%Z|];
    eexists; cbn; rewrite <- !app_assoc; reflexivity.
Qed.

Lemma on_image_limited_not_posted (self : ImagePersistence) (w : list effect)
    (item : ImageMsg) (env : Env) :
  rate_limited self (time_1 env) = true ->
  ~ posted w (on_image item env (self, w)).
Proof.
  intros H [rest Hrest]. rewrite (on_image_limited _ _ _ _ H) in Hrest.
  cbn in Hrest. apply (f_equal (@length effect)) in Hrest.
  rewrite length_app in Hrest. cbn in Hrest. lia.
Qed.

Lemma posted_iff (self : ImagePersistence) (w : list effect)
    (item : ImageMsg) (env : Env) :
  posted w (on_image item env (self, w))
  <-> min_update_interval self <= time_1 env - last_update self.
Proof.
  rewrite <- rate_limited_false.
  destruct (rate_limited self (time_1 env)) eqn:Hg.
  - pose proof (on_image_limited_not_posted self w item env Hg).
    split; [tauto|discriminate].
  - pose proof (on_image_passed_posted self w item env Hg). tauto.
Qed.

Lemma not_posted_unchanged (self : ImagePersistence) (w : list effect)
    (item : ImageMsg) (env : Env) :
  ~ posted w (on_image item env (self, w)) ->
  on_image item env (self, w) = (Py.Returned tt, (self, w)).
Proof.
  intros Hno. destruct (rate_limited self (time_1 env)) eqn:Hg.
  - apply on_image_limited, Hg.
  - destruct Hno. apply on_image_passed_posted, Hg.
Qed.

(** C7.  A frame gets past the rate limit exactly when
    [now - last_update >= min_update_interval]; then [last_update]
    becomes [now].  Otherwise the call returns and neither the object
    nor the outside has changed.  So with [last_update = t0] and
    interval [T], a frame at [t0 + T - eps] is dropped with
    [last_update] still [t0], and a frame at [t0 + T] gets past. *)
Theorem rate_limit_check (self : ImagePersistence) (w : list effect)
    (item : ImageMsg) (env : Env) :
  let now := time_1 env in
  let t0 := last_update self in
  let T := min_update_interval self in
  let after := on_image item env (self, w) in
  (posted w after <-> T <= now - t0)
  /\ (posted w after -> last_update (fst (snd after)) = now)
  /\ (~ posted w after -> after = (Py.Returned tt, (self, w)))
  /\ (forall eps, 0 < eps -> now == t0 + T - eps ->
        after = (Py.Returned tt, (self, w))
        /\ last_update (fst (snd after)) = t0)
  /\ (now == t0 + T ->
        posted w after /\ last_update (fst (snd after)) = now).
Proof.
  intros now t0 T after. subst now t0 T after.
  destruct (rate_limited self (time_1 env)) eqn:Hg.
  - pose proof (on_image_limited_not_posted self w item env Hg) as Hno.
    pose proof (on_image_limited self w item env Hg) as Hsame.
    apply rate_limited_true in Hg.
    split; [split; [tauto|lra]|].
    split; [tauto|]. split; [intros _; exact Hsame|].
    split; [|intros; lra].
    intros eps Heps Hnow. rewrite Hsame. split; reflexivity.
  - pose proof (on_image_passed_posted self w item env Hg) as Hyes.
    pose proof (on_image_passed_self self w item env Hg) as Hself.
    apply rate_limited_false in Hg.
    split; [tauto|]. split; [intros _; rewrite Hself; reflexivity|].
    split; [tauto|]. split; [intros; lra|].
    intros _. split; [exact Hyes|rewrite Hself; reflexivity].
Qed.

Lemma rate_limit_check_witness :
  let self := with_last_update (fst Scenario.sink) 100 in
  let after := on_image (fst (Scenario.frame 109)) (snd (Scenario.frame 109))
                        (self, []) in
  0 < 1 /\ 109 == 100 + 10 - 1
  /\ after = (Py.Returned tt, (self, []))
  /\ last_update (fst (snd after)) = 100.
Proof.
  intros self after.
  assert (Heps : 0 < 1) by reflexivity.
  assert (Hnow : 109 == 100 + 10 - 1) by reflexivity.
  split; [exact Heps|]. split; [exact Hnow|].
  exact (proj1 (proj2 (proj2 (proj2
           (rate_limit_check self [] (fst (Scenario.frame 109))
              (snd (Scenario.frame 109))))))
         1 Heps Hnow).
Defined.

(** C2, as amended.  A new sink has [last_update = 0], so its first
    frame gets past the rate limit exactly when its arrival time is at
    least [min_update_interval]; an earlier first frame is dropped.
    With an interval of 10 and frames at 0, 4, 9 and 11 the one stored
    document is that of the frame at 11. *)
Theorem first_frame_check (d : Database) (v : VarType) (e : string)
    (T : Q) (w : list effect) (item : ImageMsg) (env : Env) :
  let self := init d v e T in
  let after := on_image item env (self, w) in
  (posted w after <-> T <= time_1 env)
  /\ (time_1 env < T -> after = (Py.Returned tt, (self, w)))
  /\ Scenario.stored_times
       (snd (run [Scenario.frame 0; Scenario.frame 4; Scenario.frame 9;
                  Scenario.frame 11] Scenario.sink)) = [11].
Proof.
  intros self after. subst after.
  pose proof (posted_iff self w item env) as Hiff.
  change (last_update self) with 0 in Hiff.
  change (min_update_interval self) with T in Hiff.
  split; [rewrite Hiff; split; intros; lra|].
  split; [|reflexivity].
  intros Hlt. apply not_posted_unchanged. rewrite Hiff. lra.
Qed.

Lemma first_frame_check_witness :
  0 < 10
  /\ on_image (fst (Scenario.frame 0)) (snd (Scenario.frame 0)) Scenario.sink
     = (Py.Returned tt, Scenario.sink).
Proof.
  assert (Hlt : 0 < 10) by reflexivity.
  split; [exact Hlt|].
  exact (proj1 (proj2
           (first_frame_check
              {| resource_url := "http://localhost:5984/environmental_data_point" |}
              {| name := "aerial_image" |} "environment_1" 10 []
              (fst (Scenario.frame 0)) (snd (Scenario.frame 0))))
         Hlt).
Defined.

(** C2 as stated fails: the first frame of a sink with interval 10,
    arriving at time 0, is dropped, and of the frames at 0, 4, 9 and 11
    only the last one is stored. *)
Lemma first_frame_at_zero_dropped :
  on_image (fst (Scenario.frame 0)) (snd (Scenario.frame 0)) Scenario.sink
  = (Py.Returned tt, Scenario.sink)
  /\ ~ posted (snd Scenario.sink)
         (on_image (fst (Scenario.frame 0)) (snd (Scenario.frame 0))
                   Scenario.sink)
  /\ Scenario.stored_times
       (snd (run [Scenario.frame 0; Scenario.frame 4; Scenario.frame 9;
                  Scenario.frame 11] Scenario.sink)) <> [0; 11].
Proof.
  split; [reflexivity|]. split.
  - apply (on_image_limited_not_posted (fst Scenario.sink)). reflexivity.
  - vm_compute. discriminate.
Qed.

(** C8, as amended.  A frame that gets past the rate limit in an
    encoding of the mapping, whose pixel data PIL accepts and whose
    document the database accepts, makes the sink log, save a document
    with no value and [is_desired] false, and then upload the PNG of
    the image to the [image] attachment of that document at the
    revision the save returned.  A reply to the upload other than 201,
    or an exception in it, makes [on_image] raise; the document stays
    among the stored ones and no further request is made. *)
Theorem two_phase_write (self : ImagePersistence) (w : list effect)
    (item : ImageMsg) (env : Env) (image_format point_id point_rev : string)
    (Hgate : min_update_interval self <= time_1 env - last_update self)
    (Henc : image_format_mapping !! encoding item = Some image_format)
    (Hdecode : image_ok env = true)
    (Hsave : save_reply env = Some (point_id, point_rev)) :
  let point :=
    {| Models.environment := environment self;
       Models.variable := name (variable self);
       Models.is_desired := false;
       Models.value := None;
       Models.timestamp := time_2 env |} in
  let url :=
    resource_url (db self) +:+ "/" +:+ point_id +:+ "/image?rev=" +:+ point_rev in
  let img := raw_image image_format (width item, height item) (data item) in
  let after := on_image item env (self, w) in
  snd (snd after)
  = w ++ [LogInfo "Posting image";
          DbSave point (Some (point_id, point_rev));
          HttpPut url (PNG img) [("Content-Type", "image/png")] (put_reply env)]
  /\ saved (snd (snd after)) = saved w ++ [(point_id, point_rev, point)]
  /\ match put_reply env with
     | Some res =>
         if (status_code res =? 201)%Z then fst after = Py.Returned tt
         else fst after
              = Py.Raised (Py.RuntimeError
                  ("Failed to post image to database: " +:+ content res))
     | None => fst after = Py.Raised (Py.ExternalError "requests")
     end.
Proof.
  intros point url img after. subst after.
  apply rate_limited_false in Hgate.
  rewrite (on_image_passed _ _ _ _ Hgate), Henc, Hdecode, Hsave.
  cbn [negb]. cbn zeta.
  fold point. fold url. fold img.
  assert (Hw : forall r : Py.outcome unit,
            snd (snd (r, (with_last_update self (time_1 env),
                          ((w ++ [LogInfo "Posting image"])
                             ++ [DbSave point (Some (point_id, point_rev))])
                            ++ [HttpPut url (PNG img)
                                  [("Content-Type", "image/png")] (put_reply env)])))
            = w ++ [LogInfo "Posting image";
                    DbSave point (Some (point_id, point_rev));
                    HttpPut url (PNG img) [("Content-Type", "image/png")]
                      (put_reply env)]).
  { intros r. cbn. rewrite <- !app_assoc. reflexivity. }
  assert (Hs : saved (w ++ [LogInfo "Posting image";
                            DbSave point (Some (point_id, point_rev));
                            HttpPut url (PNG img) [("Content-Type", "image/png")]
                              (put_reply env)])
               = saved w ++ [(point_id, point_rev, point)]).
  { rewrite saved_app. reflexivity. }
  destruct (put_reply env) as [res|];
    [destruct (status_code res =? 201)%Z|];
    rewrite Hw, Hs; repeat split.
Qed.

Lemma two_phase_write_witness :
  let f := Scenario.frame_with 11 (Some Scenario.conflict) in
  let after := on_image (fst f) (snd f) Scenario.sink in
  fst after
  = Py.Raised (Py.RuntimeError "Failed to post image to database: conflict")
  /\ length (saved (snd (snd after))) = 1%nat.
Proof.
  intros f after.
  assert (Hgate : min_update_interval (fst Scenario.sink)
                  <= time_1 (snd f) - last_update (fst Scenario.sink))
    by (vm_compute; discriminate).
  assert (Henc : image_format_mapping !! encoding (fst f) = Some "RGB")
    by reflexivity.
  assert (Hdecode : image_ok (snd f) = true) by reflexivity.
  assert (Hsave : save_reply (snd f) = Some ("point", "1-a")) by reflexivity.
  pose proof (two_phase_write (fst Scenario.sink) (snd Scenario.sink)
                (fst f) (snd f) "RGB" "point" "1-a" Hgate Henc Hdecode Hsave)
    as [_ [Hs Hr]].
  split; [exact Hr|].
  exact (f_equal (@length _) Hs).
Defined.

(** C8 as stated fails: an rgb8 frame of one pixel with two bytes of
    data gets past the rate limit in an encoding of the mapping, PIL
    refuses the data, [on_image] raises [ValueError] and no document is
    saved. *)
Lemma short_frame_stores_nothing :
  let f := Scenario.short_frame 11 in
  let after := on_image (fst f) (snd f) Scenario.sink in
  min_update_interval (fst Scenario.sink)
    <= time_1 (snd f) - last_update (fst Scenario.sink)
  /\ image_format_mapping !! encoding (fst f) = Some "RGB"
  /\ fst after = Py.Raised Py.ValueError
  /\ snd (snd after) = [LogInfo "Posting image"]
  /\ saved (snd (snd after)) = [].
Proof.
  cbv zeta. split; [vm_compute; discriminate|].
  repeat split.
Qed.

(** One call keeps the interval and either keeps [last_update] or moves
    it to an arrival time at least one interval later. *)
Lemma on_image_self (self : ImagePersistence) (w : list effect)
    (item : ImageMsg) (env : Env) :
  let self' := fst (snd (on_image item env (self, w))) in
  min_update_interval self' = min_update_interval self
  /\ (last_update self' = last_update self
      \/ last_update self' = time_1 env
         /\ min_update_interval self <= time_1 env - last_update self).
Proof.
  destruct (rate_limited self (time_1 env)) eqn:Hg.
  - rewrite (on_image_limited _ _ _ _ Hg). cbn. auto.
  - cbn zeta. rewrite (on_image_passed_self _ _ _ _ Hg). cbn.
    apply rate_limited_false in Hg. auto.
Qed.

(** With an interval that is not negative, [last_update] never moves
    back. *)
Lemma run_floor (frames : list (ImageMsg * Env)) (self : ImagePersistence)
    (w : list effect) (t : Q) :
  0 <= min_update_interval self -> t <= last_update self ->
  min_update_interval (fst (snd (run frames (self, w))))
    = min_update_interval self
  /\ t <= last_update (fst (snd (run frames (self, w)))).
Proof.
  revert self w. induction frames as [|[item env] frames IH];
    intros self w HT Ht; [cbn; auto|].
  cbn [run]. pose proof (on_image_self self w item env) as Hone.
  destruct (on_image item env (self, w)) as [r [self1 w1]].
  cbn [fst snd] in Hone. destruct Hone as [HT1 Hl1].
  assert (HT' : 0 <= min_update_interval self1) by (rewrite HT1; exact HT).
  assert (Ht' : t <= last_update self1).
  { destruct Hl1 as [->|[-> Hpass]]; [exact Ht|lra]. }
  specialize (IH self1 w1 HT' Ht').
  destruct (run frames (self1, w1)) as [rs st]. cbn [fst snd] in *.
  rewrite <- HT1. exact IH.
Qed.

(** C10.  A frame that gets past the rate limit at time [t] leaves
    [last_update = t], whether it then stores a document, raises for
    its encoding or for pixel data PIL refuses, or fails in a write.
    Frames that follow and arrive
    before [t + min_update_interval] are all dropped: the calls return,
    and the object and the history, hence the stored documents, stay as
    the first frame left them.  With an interval that is not negative,
    a frame with such an arrival time is dropped after any other frames
    as well. *)
Theorem limit_holds_after_pass (self : ImagePersistence) (w : list effect)
    (item : ImageMsg) (env : Env) (later : list (ImageMsg * Env))
    (Hgate : min_update_interval self <= time_1 env - last_update self)
    (Hlater : Forall (fun f => time_1 (snd f)
                               < time_1 env + min_update_interval self) later) :
  let after := on_image item env (self, w) in
  last_update (fst (snd after)) = time_1 env
  /\ run later (snd after) = (map (fun _ => Py.Returned tt) later, snd after)
  /\ saved (snd (snd (run later (snd after)))) = saved (snd (snd after))
  /\ (image_format_mapping !! encoding item = None ->
        after = (Py.Raised Py.ValueError,
                 (with_last_update self (time_1 env),
                  w ++ [LogInfo "Posting image"]))
        /\ saved (snd (snd after)) = saved w)
  /\ (is_Some (image_format_mapping !! encoding item) ->
        image_ok env = false ->
        after = (Py.Raised Py.ValueError,
                 (with_last_update self (time_1 env),
                  w ++ [LogInfo "Posting image"]))
        /\ saved (snd (snd after)) = saved w)
  /\ (save_reply env = None ->
        is_Some (image_format_mapping !! encoding item) ->
        image_ok env = true ->
        fst after = Py.Raised (Py.ExternalError "couchdb")
        /\ saved (snd (snd after)) = saved w)
  /\ (0 <= min_update_interval self ->
      forall (others : list (ImageMsg * Env)) (f : ImageMsg * Env),
        time_1 (snd f) < time_1 env + min_update_interval self ->
        let st := snd (run others (snd after)) in
        on_image (fst f) (snd f) st = (Py.Returned tt, st)).
Proof.
  intros after. subst after.
  apply rate_limited_false in Hgate.
  pose proof (on_image_passed_self self w item env Hgate) as Hself.
  destruct (on_image item env (self, w)) as [r [self' w']] eqn:Hrun.
  cbn [fst snd] in *. subst self'.
  assert (Hrest : run later (with_last_update self (time_1 env), w')
                  = (map (fun _ => Py.Returned tt) later,
                     (with_last_update self (time_1 env), w'))).
  { apply run_limited. eapply Forall_impl; [exact Hlater|].
    intros [item' env'] Hlt. cbn in Hlt |- *.
    apply rate_limited_true. cbn. lra. }
  split; [reflexivity|]. split; [exact Hrest|].
  split; [rewrite Hrest; reflexivity|].
  rewrite (on_image_passed _ _ _ _ Hgate) in Hrun.
  split; [|split; [|split]].
  - intros Henc. rewrite Henc in Hrun. cbn zeta in Hrun.
    inversion Hrun; subst. split; [reflexivity|].
    rewrite saved_app, app_nil_r. reflexivity.
  - intros [image_format Henc] Hdecode.
    rewrite Henc, Hdecode in Hrun. cbn [negb] in Hrun. cbn zeta in Hrun.
    inversion Hrun; subst. split; [reflexivity|].
    rewrite saved_app, app_nil_r. reflexivity.
  - intros Hsave [image_format Henc] Hdecode.
    rewrite Henc, Hdecode, Hsave in Hrun. cbn [negb] in Hrun.
    cbn zeta in Hrun.
    inversion Hrun; subst. split; [reflexivity|].
    rewrite !saved_app. cbn. rewrite !app_nil_r. reflexivity.
  - intros HT others [item' env'] Hlt. cbn [fst snd] in Hlt |- *.
    destruct (run_floor others (with_last_update self (time_1 env)) w'
                (time_1 env) HT (Qle_refl _)) as [HT' Hfloor].
    destruct (run others (with_last_update self (time_1 env), w'))
      as [rs [self2 w2]].
    cbn [fst snd] in *. apply on_image_limited, rate_limited_true.
    rewrite HT'. cbn. lra.
Qed.

Lemma limit_holds_after_pass_witness :
  let first := Scenario.mono_frame 11 in
  let later := [Scenario.frame 12; Scenario.frame 20] in
  let after := on_image (fst first) (snd first) Scenario.sink in
  fst after = Py.Raised Py.ValueError
  /\ last_update (fst (snd after)) = 11
  /\ saved (snd (snd (run later (snd after)))) = [].
Proof.
  intros first later after.
  assert (Hgate : min_update_interval (fst Scenario.sink)
                  <= time_1 (snd first) - last_update (fst Scenario.sink))
    by (vm_compute; discriminate).
  assert (Hlater : Forall (fun f => time_1 (snd f)
                             < time_1 (snd first)
                               + min_update_interval (fst Scenario.sink)) later).
  { repeat constructor. }
  pose proof (limit_holds_after_pass (fst Scenario.sink) (snd Scenario.sink)
                (fst first) (snd first) later Hgate Hlater)
    as [Hl [_ [Hs [He _]]]].
  destruct (He eq_refl) as [Hafter Hsaved].
  split; [exact (f_equal fst Hafter)|]. split; [exact Hl|].
  exact (eq_trans Hs Hsaved).
Defined.

End ImageFacts.

(** ** More about the controller *)

(** As [py_cases], innermost call first, so that no [min] or [max] is
    left behind in a hypothesis. *)
Ltac py_inner_cases :=
  repeat match goal with
    | |- context [Py.min ?a (Py.max ?b ?c)] =>
        let H := fresh "Hmax" in
        destruct (max_cases b c) as [[? H]|[? H]]; rewrite H in *
    | |- context [Py.max ?a (Py.min ?b ?c)] =>
        let H := fresh "Hmin" in
        destruct (min_cases b c) as [[? H]|[? H]]; rewrite H in *
    end;
  py_cases.

Section PidMore.
Import Pid PidNode.

(** X1.  A number returned by [update] is the literal 0 or has an
    absolute value of at least [deadband_width]. *)
Theorem update_deadband_gap (self : PID) (state out : Q)
    (Hout : fst (update self state) = Some out) :
  out = 0 \/ deadband_width self <= Qabs out.
Proof.
  destruct (set_point self) as [sp|] eqn:Hsp.
  2:{ rewrite (update_unset _ _ Hsp) in Hout. discriminate. }
  rewrite (update_result _ _ _ Hsp) in Hout.
  destruct (Py.lt _ _) eqn:Hdb in Hout; inversion Hout; subst out.
  - left. reflexivity.
  - right. apply lt_false in Hdb. exact Hdb.
Qed.

Lemma update_deadband_gap_witness :
  0 < deadband_width Setup.banded
  /\ fst (update Setup.banded 0) = Some 5
  /\ (5 = 0 \/ deadband_width Setup.banded <= Qabs 5)
  /\ fst (update Setup.banded 4) = Some 0.
Proof.
  assert (Hout : fst (update Setup.banded 0) = Some 5) by reflexivity.
  split; [reflexivity|]. split; [exact Hout|].
  split; [|reflexivity].
  exact (update_deadband_gap Setup.banded 0 5 Hout).
Defined.

(** X2.  With [lower_limit <= upper_limit] the value [update] compares
    with the deadband is [clamp(raw, lower_limit, upper_limit)]: the
    raw sum when it lies between the limits, the limit it passed
    otherwise. *)
Theorem limited_is_clamp (self : PID) (state sp : Q)
    (Hlim : lower_limit self <= upper_limit self) :
  res_limited self sp state
    == Spec.clamp (res_raw self sp state) (lower_limit self) (upper_limit self)
  /\ (res_raw self sp state < lower_limit self ->
      res_limited self sp state == lower_limit self)
  /\ (upper_limit self < res_raw self sp state ->
      res_limited self sp state == upper_limit self)
  /\ (lower_limit self <= res_raw self sp state <= upper_limit self ->
      res_limited self sp state == res_raw self sp state).
Proof.
  unfold res_limited, Spec.clamp.
  generalize (res_raw self sp state). intros r.
  split; [py_inner_cases; lra|].
  split; [intros H; py_inner_cases; lra|].
  split; [intros H; py_inner_cases; lra|].
  intros [H1 H2]. py_inner_cases; lra.
Qed.

Lemma limited_is_clamp_witness :
  lower_limit Scenario.default_at_5 <= upper_limit Scenario.default_at_5
  /\ upper_limit Scenario.default_at_5 < res_raw Scenario.default_at_5 5 3
  /\ res_limited Scenario.default_at_5 5 3 == 1.
Proof.
  assert (Hlim : lower_limit Scenario.default_at_5
                 <= upper_limit Scenario.default_at_5)
    by (vm_compute; discriminate).
  assert (Hup : upper_limit Scenario.default_at_5
                < res_raw Scenario.default_at_5 5 3)
    by (vm_compute; reflexivity).
  split; [exact Hlim|]. split; [exact Hup|].
  exact (proj1 (proj2 (proj2 (limited_is_clamp Scenario.default_at_5 3 5 Hlim)))
           Hup).
Defined.

(** X3.  With the limits the wrong way round, [upper_limit <
    lower_limit], the limited value is always [upper_limit]: [update]
    returns [upper_limit] or, inside the deadband, 0, whatever the
    gains and the error. *)
Theorem inverted_limits_pin_output (self : PID) (state sp : Q)
    (Hsp : set_point self = Some sp)
    (Hinv : upper_limit self < lower_limit self) :
  res_limited self sp state = upper_limit self
  /\ (fst (update self state) = Some (upper_limit self)
      \/ fst (update self state) = Some 0).
Proof.
  assert (Hpin : res_limited self sp state = upper_limit self).
  { unfold res_limited. generalize (res_raw self sp state). intros r.
    py_inner_cases; first [reflexivity | lra]. }
  split; [exact Hpin|].
  rewrite (update_result _ _ _ Hsp), Hpin.
  destruct (Py.lt _ _); auto.
Qed.

(** X4.  With a negative [windup_limit] every [update] leaves
    [- windup_limit] in the integrator, whatever the error. *)
Theorem negative_windup_pins_integrator (self : PID) (state sp : Q) (n : nat)
    (Hsp : set_point self = Some sp)
    (Hneg : windup_limit self < 0) :
  integrator (drive self state (S n)) = - windup_limit self.
Proof.
  rewrite (drive_integrator _ _ _ _ Hsp).
  generalize (integrator (drive self state n) + (sp - state)). intros x.
  py_inner_cases; first [reflexivity | lra].
Qed.

Lemma inverted_limits_pin_output_witness :
  set_point Setup.inverted = Some 0
  /\ upper_limit Setup.inverted < lower_limit Setup.inverted
  /\ res_limited Setup.inverted 0 7 = 1.
Proof.
  assert (Hsp : set_point Setup.inverted = Some 0) by reflexivity.
  assert (Hinv : upper_limit Setup.inverted < lower_limit Setup.inverted)
    by (vm_compute; reflexivity).
  split; [exact Hsp|]. split; [exact Hinv|].
  exact (proj1 (inverted_limits_pin_output Setup.inverted 7 0 Hsp Hinv)).
Defined.

Lemma negative_windup_pins_integrator_witness :
  set_point Setup.negative_windup = Some 5
  /\ windup_limit Setup.negative_windup < 0
  /\ integrator (drive Setup.negative_windup 100 3) = - (-3).
Proof.
  assert (Hsp : set_point Setup.negative_windup = Some 5) by reflexivity.
  assert (Hneg : windup_limit Setup.negative_windup < 0)
    by (vm_compute; reflexivity).
  split; [exact Hsp|]. split; [exact Hneg|].
  exact (negative_windup_pins_integrator Setup.negative_windup 100 5 2 Hsp Hneg).
Defined.

(** *** Runs of messages *)

Lemma update_configuration (self : PID) (state : Q) :
  configuration (snd (update self state)) = configuration self
  /\ set_point (snd (update self state)) = set_point self.
Proof.
  destruct (set_point self) as [sp|] eqn:Hsp.
  - rewrite (update_state _ _ _ Hsp). auto.
  - rewrite (update_unset _ _ Hsp). auto.
Qed.

Lemma state_callback_update (pid : PID) (item : Q) :
  snd (state_callback pid item) = snd (update pid item)
  /\ fst (state_callback pid item)
     = match fst (update pid item) with Some c => [c] | None => [] end.
Proof.
  unfold state_callback. destruct (update pid item) as [[c|] pid']; auto.
Qed.

Lemma spin_cons (pid : PID) (m : msg) (ms : list msg) :
  spin pid (m :: ms)
  = (fst (deliver pid m) ++ fst (spin (snd (deliver pid m)) ms),
     snd (spin (snd (deliver pid m)) ms)).
Proof.
  cbn [spin]. destruct (deliver pid m) as [out pid1]. cbn [fst snd].
  destruct (spin pid1 ms) as [outs pid2]. reflexivity.
Qed.

(** What every message keeps, every run keeps. *)
Lemma spin_invariant (P : PID -> Prop) :
  (forall pid m, P pid -> P (snd (deliver pid m))) ->
  forall ms pid, P pid -> P (snd (spin pid ms)).
Proof.
  intros Hstep ms. induction ms as [|m ms IH]; intros pid HP.
  - exact HP.
  - rewrite spin_cons. cbn [snd]. apply IH, Hstep, HP.
Qed.

Lemma deliver_configuration (pid : PID) (m : msg) :
  configuration (snd (deliver pid m)) = configuration pid.
Proof.
  destruct m as [v|v]; cbn [deliver snd].
  - reflexivity.
  - rewrite (proj1 (state_callback_update pid v)).
    apply update_configuration.
Qed.

(** X5.  No run of messages changes the gains, the limits, the windup
    limit or the deadband.  The set point after a run is the data of
    the last [desired] message of the run, or the one of before when
    there was none: once set it is never unset. *)
Theorem spin_keeps_configuration (pid : PID) (ms : list msg) :
  configuration (snd (spin pid ms)) = configuration pid
  /\ set_point (snd (spin pid ms))
     = match last (desired_values ms) with
       | Some v => Some v
       | None => set_point pid
       end.
Proof.
  split.
  - apply (spin_invariant (fun p => configuration p = configuration pid));
      [|reflexivity].
    intros p m Hp. rewrite deliver_configuration. exact Hp.
  - revert pid. induction ms as [|m ms IH]; intros pid; [reflexivity|].
    rewrite spin_cons. cbn [snd]. rewrite IH.
    destruct m as [v|v]; cbn [deliver snd desired_values].
    + rewrite last_cons. destruct (last (desired_values ms)); reflexivity.
    + rewrite (proj1 (state_callback_update pid v)).
      rewrite (proj2 (update_configuration pid v)). reflexivity.
Qed.

(** X6.  A controller constructed with [0 <= windup_limit] keeps its
    integrator within [-windup_limit, windup_limit] under every run of
    messages, changes of the set point included. *)
Theorem spin_integrator_bounded
    (Kp Ki Kd upper lower windup deadband : Q) (ms : list msg)
    (Hw : 0 <= windup) :
  Qabs (integrator (snd (spin (init Kp Ki Kd upper lower windup deadband) ms)))
  <= windup.
Proof.
  apply Qabs_Qle_condition.
  apply (spin_invariant
           (fun p => windup_limit p = windup
                     /\ - windup <= integrator p <= windup)
           ) with (ms := ms)
                  (pid := init Kp Ki Kd upper lower windup deadband).
  - intros p m [Hwp Hi]. destruct m as [v|v]; cbn [deliver snd].
    + auto.
    + rewrite (proj1 (state_callback_update p v)).
      destruct (set_point p) as [sp|] eqn:Hsp.
      * rewrite (update_state _ _ _ Hsp). cbn. rewrite Hwp.
        split; [reflexivity|]. apply windup_step_bounds, Hw.
      * rewrite (update_unset _ _ Hsp). auto.
  - cbn. split; [reflexivity|]. lra.
Qed.

Lemma spin_integrator_bounded_witness :
  0 <= 10
  /\ Qabs (integrator (snd (spin (init 0 1 0 1 (-1) 10 0)
                                 [Desired 50; State 0; Desired (-50); State 0])))
     <= 10.
Proof.
  assert (Hw : 0 <= 10) by (vm_compute; discriminate).
  split; [exact Hw|].
  exact (spin_integrator_bounded 0 1 0 1 (-1) 10 0
           [Desired 50; State 0; Desired (-50); State 0] Hw).
Defined.

(** X7.  Once a set point is present the node publishes one command
    for each measurement and none for a set point: a run publishes as
    many values as it has [state] messages. *)
Theorem spin_publishes_per_measurement (pid : PID) (sp : Q) (ms : list msg)
    (Hsp : set_point pid = Some sp) :
  length (fst (spin pid ms)) = length (measurements ms).
Proof.
  revert pid sp Hsp. induction ms as [|m ms IH]; intros pid sp Hsp;
    [reflexivity|].
  rewrite spin_cons. cbn [fst]. rewrite length_app.
  destruct m as [v|v]; cbn [deliver fst snd measurements length].
  - apply (IH _ v). reflexivity.
  - destruct (state_callback_update pid v) as [Hs Hf]. rewrite Hs, Hf.
    rewrite (update_result _ _ _ Hsp).
    rewrite (IH _ sp)
      by (rewrite (proj2 (update_configuration pid v)); exact Hsp).
    destruct (Py.lt _ _); reflexivity.
Qed.

Lemma spin_publishes_per_measurement_witness :
  set_point Scenario.default_at_5 = Some 5
  /\ length (fst (spin Scenario.default_at_5
                       [State 3; Desired 2; State 2; State 9]))
     = 3%nat.
Proof.
  assert (Hsp : set_point Scenario.default_at_5 = Some 5) by reflexivity.
  split; [exact Hsp|].
  exact (spin_publishes_per_measurement Scenario.default_at_5 5
           [State 3; Desired 2; State 2; State 9] Hsp).
Defined.

(** X8.  With [lower_limit <= 0 <= upper_limit] every value the node
    publishes lies between the limits, from any state of the controller
    and under any run of messages. *)
Theorem spin_publishes_within_limits (pid : PID) (ms : list msg)
    (Hlo : lower_limit pid <= 0) (Hup : 0 <= upper_limit pid) :
  Forall (fun c => lower_limit pid <= c <= upper_limit pid) (fst (spin pid ms)).
Proof.
  revert pid Hlo Hup. induction ms as [|m ms IH]; intros pid Hlo Hup;
    [constructor|].
  rewrite spin_cons. cbn [fst]. apply Forall_app.
  pose proof (deliver_configuration pid m) as Hc.
  unfold configuration in Hc. injection Hc as _ _ _ Hu Hl _ _.
  split.
  - destruct m as [v|v]; cbn [deliver fst]; [constructor|].
    rewrite (proj2 (state_callback_update pid v)).
    destruct (set_point pid) as [sp|] eqn:Hsp.
    + rewrite (update_result _ _ _ Hsp).
      assert (Hlim : lower_limit pid <= upper_limit pid) by lra.
      pose proof (res_limited_bounds pid sp v Hlim).
      destruct (Py.lt _ _); repeat constructor; lra.
    + rewrite (update_unset _ _ Hsp). constructor.
  - rewrite <- Hu, <- Hl. apply IH; rewrite ?Hu, ?Hl; assumption.
Qed.

Lemma spin_publishes_within_limits_witness :
  lower_limit Scenario.default_at_5 <= 0
  /\ 0 <= upper_limit Scenario.default_at_5
  /\ Forall (fun c => -1 <= c <= 1)
            (fst (spin Scenario.default_at_5 [State 3; Desired 2; State 9])).
Proof.
  assert (Hlo : lower_limit Scenario.default_at_5 <= 0)
    by (vm_compute; discriminate).
  assert (Hup : 0 <= upper_limit Scenario.default_at_5)
    by (vm_compute; discriminate).
  split; [exact Hlo|]. split; [exact Hup|].
  exact (spin_publishes_within_limits Scenario.default_at_5
           [State 3; Desired 2; State 9] Hlo Hup).
Defined.

(** X9.  The derivative term acts on the change of the error only: when
    the same measurement arrives twice under the same set point, the
    raw sum of the second [update] is the proportional plus the
    integral term. *)
Theorem steady_error_no_derivative (self : PID) (state sp : Q)
    (Hsp : set_point self = Some sp) :
  let once := snd (update self state) in
  let twice := snd (update once state) in
  res_raw once sp state
  == Kp self * (sp - state) + Ki self * integrator twice.
Proof.
  intros once twice. subst twice once.
  assert (Hsp1 : set_point (snd (update self state)) = Some sp).
  { rewrite (proj2 (update_configuration self state)). exact Hsp. }
  rewrite (update_state _ state _ Hsp1).
  unfold res_raw. rewrite (update_state _ state _ Hsp). cbn. ring.
Qed.

Lemma steady_error_no_derivative_witness :
  set_point Setup.three_terms = Some 5
  /\ ~ Kd Setup.three_terms == 0
  /\ res_raw Setup.three_terms 5 3 == 12
  /\ res_raw (snd (update Setup.three_terms 3)) 5 3
     == 2 * (5 - 3)
        + 1 * integrator (snd (update (snd (update Setup.three_terms 3)) 3))
  /\ res_raw (snd (update Setup.three_terms 3)) 5 3 == 8.
Proof.
  assert (Hsp : set_point Setup.three_terms = Some 5) by reflexivity.
  split; [exact Hsp|]. split; [vm_compute; discriminate|].
  split; [vm_compute; reflexivity|].
  split; [|vm_compute; reflexivity].
  exact (steady_error_no_derivative Setup.three_terms 3 5 Hsp).
Defined.

(** *** Start-up and topics *)

(** X10.  The parameter loop copies the seven parameters of
    [param_names] that the server has under their private names and
    nothing else: any other key of the server is ignored. *)
Theorem load_params_only_known (server : gmap string Q) (name : string)
    (v : Q) :
  load_params server !! name = Some v
  <-> name ∈ param_names /\ server !! ("~" +:+ name) = Some v.
Proof.
  unfold load_params.
  assert (Hl := load_loop_lookup server param_names ∅ name).
  cbv zeta. rewrite Hl. clear Hl.
  destruct (decide (name ∈ param_names)) as [Hin|Hout].
  - destruct (server !! ("~" +:+ name)) as [x|].
    + split; [intros [= ->]; auto|intros [_ [= ->]]; reflexivity].
    + rewrite lookup_empty. split; [discriminate|intros [_ ?]; discriminate].
  - rewrite lookup_empty. split; [discriminate|tauto].
Qed.

(** X11.  The start-up fails exactly in the global namespace, whatever
    the parameters are, and with the parameters all absent it yields
    the controller of the default arguments. *)
Theorem startup_fails_iff_global (namespace : string)
    (server : gmap string Q) :
  ((forall pid, startup namespace server <> Py.Returned pid)
   <-> namespace = "/")
  /\ (namespace <> "/" ->
      startup namespace ∅ = Py.Returned (init 0 0 0 1 (-1) 1000 0)).
Proof.
  unfold startup. destruct (String.eqb_spec namespace "/") as [->|Hne].
  - split; [split; [reflexivity|intros _ pid; discriminate]|].
    intros H. destruct H. reflexivity.
  - split; [|intros _; reflexivity].
    split; [|intros ->; destruct Hne; reflexivity].
    intros H. destruct (H _ eq_refl).
Qed.

Lemma startup_fails_iff_global_witness :
  "/environment_1/" <> "/"
  /\ startup "/environment_1/" ∅ = Py.Returned (init 0 0 0 1 (-1) 1000 0).
Proof.
  assert (Hns : "/environment_1/" <> "/") by discriminate.
  split; [exact Hns|].
  exact (proj2 (startup_fails_iff_global "/environment_1/" ∅) Hns).
Defined.

(** X12.  The three topics of a controller are different from each
    other, so it never listens to what it publishes, and controllers
    for different variables have no topic in common. *)
Theorem topic_names_apart (v1 v2 : option string) (Hne : v1 <> v2) :
  let '(pub1, state1, desired1) := topic_names v1 in
  let '(pub2, state2, desired2) := topic_names v2 in
  NoDup [pub1; state1; desired1; pub2; state2; desired2].
Proof.
  destruct v1 as [x|], v2 as [y|]; cbn [topic_names];
    try (destruct Hne; reflexivity);
    repeat (apply NoDup_cons; split;
            [rewrite ?elem_of_cons, elem_of_nil; intros H;
             destruct_or!; simplify_eq/=; congruence|]);
    apply NoDup_nil_2.
Qed.

Lemma topic_names_apart_witness :
  Some "air_temperature" <> Some "air_humidity"
  /\ NoDup ["commanded/air_temperature"; "measured/air_temperature";
            "desired/air_temperature"; "commanded/air_humidity";
            "measured/air_humidity"; "desired/air_humidity"].
Proof.
  assert (Hne : Some "air_temperature" <> Some "air_humidity") by discriminate.
  split; [exact Hne|].
  exact (topic_names_apart (Some "air_temperature") (Some "air_humidity") Hne).
Defined.

End PidMore.

(** ** More about the image sink *)

Section ImageMore.
Import Image.

Lemma mapping_lookup (e : string) :
  image_format_mapping !! e
  = if decide (e = "rgb8") then Some "RGB"
    else if decide (e = "rgba8") then Some "RGBA" else None.
Proof.
  unfold image_format_mapping.
  destruct (decide (e = "rgb8")) as [->|H1]; [reflexivity|].
  rewrite lookup_insert_ne by congruence.
  destruct (decide (e = "rgba8")) as [->|H2]; [reflexivity|].
  rewrite lookup_insert_ne by congruence. apply lookup_empty.
Qed.

(** The ways through [on_image]. *)
Lemma on_image_cases (self : ImagePersistence) (w : list effect)
    (item : ImageMsg) (env : Env) :
  let after := on_image item env (self, w) in
  let self' := with_last_update self (time_1 env) in
  let posting := LogInfo "Posting image" in
  let point := Setup.point_of self env in
  (rate_limited self (time_1 env) = true
   /\ after = (Py.Returned tt, (self, w)))
  \/ (rate_limited self (time_1 env) = false
      /\ (((image_format_mapping !! encoding item = None
            \/ is_Some (image_format_mapping !! encoding item)
               /\ image_ok env = false)
           /\ after = (Py.Raised Py.ValueError, (self', w ++ [posting])))
          \/ exists image_format,
               image_format_mapping !! encoding item = Some image_format
               /\ image_ok env = true
               /\ ((save_reply env = None
                    /\ after = (Py.Raised (Py.ExternalError "couchdb"),
                                (self', w ++ [posting; DbSave point None])))
                   \/ exists point_id point_rev,
                        save_reply env = Some (point_id, point_rev)
                        /\ snd after
                           = (self',
                              w ++ [posting;
                                    DbSave point (Some (point_id, point_rev));
                                    Setup.upload_of self item env image_format
                                      point_id point_rev])
                        /\ ((put_reply env = None
                             /\ fst after
                                = Py.Raised (Py.ExternalError "requests"))
                            \/ exists res,
                                 put_reply env = Some res
                                 /\ ((status_code res <> 201%Z
                                      /\ fst after
                                         = Py.Raised (Py.RuntimeError
                                             ("Failed to post image to database: "
                                                +:+ content res)))
                                     \/ (status_code res = 201%Z
                                         /\ fst after = Py.Returned tt)))))).
Proof.
  cbv zeta. destruct (rate_limited self (time_1 env)) eqn:Hg.
  { left. split; [reflexivity|]. apply on_image_limited, Hg. }
  right. split; [reflexivity|].
  rewrite (on_image_passed _ _ _ _ Hg). cbv zeta.
  destruct (image_format_mapping !! encoding item) as [image_format|];
    [|left; split; [left|]; reflexivity].
  destruct (image_ok env); cbn [negb].
  2:{ left. split; [right; split; [eexists|]|]; reflexivity. }
  right. exists image_format. split; [reflexivity|]. split; [reflexivity|].
  destruct (save_reply env) as [[point_id point_rev]|].
  2:{ left. split; [reflexivity|]. rewrite <- app_assoc. reflexivity. }
  right. exists point_id, point_rev. split; [reflexivity|].
  unfold Setup.upload_of, Setup.point_of.
  destruct (put_reply env) as [res|].
  2:{ split; [cbn; rewrite <- !app_assoc; reflexivity|].
      left. split; reflexivity. }
  destruct (Z.eqb_spec (status_code res) 201) as [Hs|Hs].
  - split; [cbn; rewrite <- !app_assoc; reflexivity|].
    right. exists res. split; [reflexivity|]. right. split; [exact Hs|reflexivity].
  - split; [cbn; rewrite <- !app_assoc; reflexivity|].
    right. exists res. split; [reflexivity|]. left. split; [exact Hs|reflexivity].
Qed.

(** X13.  One call of [on_image] adds to the history nothing, the log
    line, the log line and a refused save, or the log line, an accepted
    save and one upload addressed to the identifier and revision that
    save returned.  So there is at most one save and one upload per
    frame, and never an upload without an accepted save before it. *)
Theorem on_image_effects_shape (self : ImagePersistence) (w : list effect)
    (item : ImageMsg) (env : Env) :
  exists new,
    snd (snd (on_image item env (self, w))) = w ++ new
    /\ (new = []
        \/ new = [LogInfo "Posting image"]
        \/ new = [LogInfo "Posting image";
                  DbSave (Setup.point_of self env) None]
        \/ exists image_format point_id point_rev,
             image_format_mapping !! encoding item = Some image_format
             /\ save_reply env = Some (point_id, point_rev)
             /\ new = [LogInfo "Posting image";
                       DbSave (Setup.point_of self env)
                              (Some (point_id, point_rev));
                       Setup.upload_of self item env image_format
                                       point_id point_rev]).
Proof.
  destruct (on_image_cases self w item env)
    as [[_ ->]|[_ [[_ ->]|[image_format [Henc [_ [[_ ->]|
         [point_id [point_rev [Hsave [-> _]]]]]]]]]]]; cbn [snd].
  - exists []. rewrite app_nil_r. auto.
  - eexists. split; [reflexivity|]. auto.
  - eexists. split; [reflexivity|]. auto.
  - eexists. split; [reflexivity|]. right; right; right.
    exists image_format, point_id, point_rev. auto.
Qed.

(** X14.  [on_image] raises [ValueError] exactly for a frame that gets
    past the rate limit and either has an encoding other than rgb8 and
    rgba8 or pixel data PIL refuses; no request is made for such a
    frame. *)
Theorem on_image_value_error_iff (self : ImagePersistence) (w : list effect)
    (item : ImageMsg) (env : Env) :
  let after := on_image item env (self, w) in
  (fst after = Py.Raised Py.ValueError
   <-> rate_limited self (time_1 env) = false
       /\ (encoding item <> "rgb8" /\ encoding item <> "rgba8"
           \/ image_ok env = false))
  /\ (fst after = Py.Raised Py.ValueError ->
      snd (snd after) = w ++ [LogInfo "Posting image"]).
Proof.
  cbv zeta. pose proof (mapping_lookup (encoding item)) as Hm.
  destruct (on_image_cases self w item env)
    as [[Hg ->]|[Hg [[Hbad ->]|[image_format [Henc [Hok [[_ ->]|
         [point_id [point_rev [_ [_ Hput]]]]]]]]]]]; cbn [fst snd].
  - split; [split; [discriminate|intros [? _]; congruence]|discriminate].
  - split; [|reflexivity]. split; [intros _|reflexivity].
    split; [exact Hg|]. destruct Hbad as [Henc|[_ Hno]]; [|auto].
    left. rewrite Henc in Hm.
    destruct (decide (encoding item = "rgb8")); [discriminate|].
    destruct (decide (encoding item = "rgba8")); [discriminate|]. auto.
  - split; [split; [discriminate|]|discriminate].
    intros [_ [[H1 H2]|Hno]]; [|congruence]. rewrite Henc in Hm.
    rewrite decide_False, decide_False in Hm by assumption. discriminate.
  - assert (Hno : fst (on_image item env (self, w)) <> Py.Raised Py.ValueError).
    { destruct Hput as [[_ ->]|[res [_ [[_ ->]| [_ ->]]]]]; discriminate. }
    split; [split; [intros H; destruct (Hno H)|]|intros H; destruct (Hno H)].
    intros [_ [[H1 H2]|Hbad]]; [|congruence]. rewrite Henc in Hm.
    rewrite decide_False, decide_False in Hm by assumption. discriminate.
Qed.

(** X15.  [on_image] returns without an exception exactly when the
    frame is dropped by the rate limit, or when its encoding is in the
    mapping, PIL accepts its pixel data, the save is accepted and the
    upload is answered with status 201. *)
Theorem on_image_returns_iff (self : ImagePersistence) (w : list effect)
    (item : ImageMsg) (env : Env) :
  fst (on_image item env (self, w)) = Py.Returned tt
  <-> rate_limited self (time_1 env) = true
      \/ (is_Some (image_format_mapping !! encoding item)
          /\ image_ok env = true
          /\ is_Some (save_reply env)
          /\ exists res, put_reply env = Some res /\ status_code res = 201%Z).
Proof.
  destruct (on_image_cases self w item env)
    as [[Hg ->]|[Hg [[Hbad ->]|[image_format [Henc [Hok [[Hsave ->]|
         [point_id [point_rev [Hsave [_ Hput]]]]]]]]]]]; cbn [fst].
  - tauto.
  - split; [discriminate|].
    intros [H|[[x Hx] [Hok _]]]; [congruence|].
    destruct Hbad as [Hnone|[_ Hno]]; congruence.
  - split; [discriminate|]. intros [H|[_ [_ [[x Hx] _]]]]; congruence.
  - destruct Hput as [[Hp ->]|[res [Hp [[Hs ->]|[Hs ->]]]]].
    + split; [discriminate|]. intros [H|[_ [_ [_ [res [Hr _]]]]]]; congruence.
    + split; [discriminate|].
      intros [H|[_ [_ [_ [res' [Hr Hs']]]]]]; congruence.
    + split; [intros _|reflexivity]. right.
      split; [eauto|]. split; [exact Hok|]. split; [eauto|]. eauto.
Qed.

Lemma on_image_value_error_iff_witness :
  let first := Scenario.short_frame 11 in
  let after := on_image (fst first) (snd first) Scenario.sink in
  fst after = Py.Raised Py.ValueError
  /\ snd (snd after) = [LogInfo "Posting image"].
Proof.
  intros first after.
  assert (Hraise : fst after = Py.Raised Py.ValueError) by reflexivity.
  split; [exact Hraise|].
  exact (proj2 (on_image_value_error_iff (fst Scenario.sink) (snd Scenario.sink)
                  (fst first) (snd first)) Hraise).
Defined.

(** *** Runs of frames *)

Lemma on_image_appends (self : ImagePersistence) (w : list effect)
    (item : ImageMsg) (env : Env) :
  exists added, snd (snd (on_image item env (self, w))) = w ++ added.
Proof.
  destruct (on_image_cases self w item env)
    as [[Hg ->]|[Hg [[Hbad ->]|[image_format [Henc [_ [[_ ->]|
         [point_id [point_rev [_ [-> _]]]]]]]]]]]; cbn [snd].
  - exists []. rewrite app_nil_r. reflexivity.
  - eexists. reflexivity.
  - eexists. reflexivity.
  - eexists. reflexivity.
Qed.

(** One call: the object keeps everything but [last_update], and the
    stored documents grow by at most one, a document of this sink. *)
Lemma on_image_step (self : ImagePersistence) (w : list effect)
    (item : ImageMsg) (env : Env) :
  let after := on_image item env (self, w) in
  (fst (snd after) = self
   \/ fst (snd after) = with_last_update self (time_1 env)
      /\ rate_limited self (time_1 env) = false)
  /\ exists new,
       saved (snd (snd after)) = saved w ++ new
       /\ (length new <= 1)%nat
       /\ Forall (Setup.image_point self) new.
Proof.
  cbv zeta.
  destruct (on_image_cases self w item env)
    as [[Hg ->]|[Hg [[Hbad ->]|[image_format [Henc [_ [[_ ->]|
         [point_id [point_rev [_ [Hsnd _]]]]]]]]]]];
    try rewrite Hsnd; cbn [fst snd].
  - split; [auto|]. exists []. rewrite app_nil_r. repeat split; auto.
  - split; [auto|]. exists []. rewrite saved_app, !app_nil_r.
    repeat split; auto.
  - split; [auto|]. exists []. rewrite saved_app, !app_nil_r.
    repeat split; auto.
  - split; [auto|]. eexists. rewrite saved_app. split; [reflexivity|].
    split; [cbn; lia|]. repeat constructor.
Qed.

Lemma run_cons (item : ImageMsg) (env : Env)
    (frames : list (ImageMsg * Env)) (st : state) :
  run ((item, env) :: frames) st
  = (fst (on_image item env st) :: fst (run frames (snd (on_image item env st))),
     snd (run frames (snd (on_image item env st)))).
Proof.
  cbn [run]. destruct (on_image item env st) as [r st1]. cbn [fst snd].
  destruct (run frames st1) as [rs st2]. reflexivity.
Qed.

(** X16.  Whatever frames arrive and whatever the database answers,
    the object keeps its database, variable, environment and interval,
    the history only grows at its end, and every document stored has no
    value, [is_desired] false, and the environment and variable of the
    sink. *)
Theorem run_stores_image_points (self : ImagePersistence) (w : list effect)
    (frames : list (ImageMsg * Env)) :
  let self' := fst (snd (run frames (self, w))) in
  let w' := snd (snd (run frames (self, w))) in
  (db self', variable self', environment self', min_update_interval self')
  = (db self, variable self, environment self, min_update_interval self)
  /\ (exists added, w' = w ++ added)
  /\ exists new,
       saved w' = saved w ++ new /\ Forall (Setup.image_point self) new.
Proof.
  cbv zeta. revert self w.
  induction frames as [|[item env] frames IH]; intros self w.
  - cbn. split; [reflexivity|].
    split; exists []; rewrite app_nil_r; auto.
  - rewrite run_cons. cbn [snd].
    destruct (on_image_appends self w item env) as [eff Heff].
    destruct (on_image_step self w item env) as [Hself [new1 [Hs1 [_ Hp1]]]].
    destruct (on_image item env (self, w)) as [r [self1 w1]].
    cbn [fst snd] in *.
    destruct (IH self1 w1) as [Hc [[added Hadd] [new2 [Hs2 Hp2]]]].
    assert (Hsame : (db self1, variable self1, environment self1,
                     min_update_interval self1)
                    = (db self, variable self, environment self,
                       min_update_interval self)).
    { destruct Hself as [->|[-> _]]; reflexivity. }
    split; [rewrite Hc; exact Hsame|].
    split.
    + exists (eff ++ added). rewrite Hadd, Heff, app_assoc. reflexivity.
    + exists (new1 ++ new2). rewrite Hs2, Hs1, app_assoc.
      split; [reflexivity|]. apply Forall_app. split; [exact Hp1|].
      eapply Forall_impl; [exact Hp2|].
      intros d. unfold Setup.image_point.
      injection Hsame as _ Hv He _. rewrite Hv, He. tauto.
Qed.

(** X17.  The rate limit bounds what a burst can store: of frames that
    all arrive within a window shorter than [min_update_interval], in
    any order and from any state of the sink, at most one is stored. *)
Theorem burst_stores_at_most_one (self : ImagePersistence) (w : list effect)
    (frames : list (ImageMsg * Env)) (start : Q)
    (Hwin : Forall (fun f => start <= time_1 (snd f)
                             /\ time_1 (snd f) < start + min_update_interval self)
                   frames) :
  (length (saved (snd (snd (run frames (self, w)))))
   <= length (saved w) + 1)%nat.
Proof.
  revert w Hwin.
  induction frames as [|[item env] frames IH]; intros w Hwin.
  - cbn. lia.
  - rewrite run_cons. cbn [snd].
    apply Forall_cons in Hwin. destruct Hwin as [[Hlo Hhi] Hwin].
    cbn [snd] in Hlo, Hhi.
    destruct (rate_limited self (time_1 env)) eqn:Hg.
    + rewrite (on_image_limited _ _ _ _ Hg). cbn [snd]. apply IH, Hwin.
    + destruct (on_image_step self w item env) as [_ [new [Hs [Hlen _]]]].
      pose proof (on_image_passed_self self w item env Hg) as Hself.
      destruct (on_image item env (self, w)) as [r [self1 w1]].
      cbn [fst snd] in *. subst self1.
      rewrite run_limited.
      * cbn [snd]. rewrite Hs, length_app. lia.
      * eapply Forall_impl; [exact Hwin|].
        intros [item' env'] [_ Hlt]. cbn [snd] in Hlt |- *.
        apply rate_limited_true. cbn. lra.
Qed.

Lemma burst_stores_at_most_one_witness :
  let frames := [Scenario.frame 11; Scenario.frame 12; Scenario.frame 20] in
  Forall (fun f => 11 <= time_1 (snd f)
                   /\ time_1 (snd f)
                      < 11 + min_update_interval (fst Scenario.sink)) frames
  /\ (length (saved (snd (snd (run frames Scenario.sink)))) <= 0 + 1)%nat.
Proof.
  intros frames.
  assert (Hwin : Forall (fun f => 11 <= time_1 (snd f)
                                  /\ time_1 (snd f)
                                     < 11 + min_update_interval (fst Scenario.sink))
                        frames).
  { repeat constructor; vm_compute; discriminate. }
  split; [exact Hwin|].
  exact (burst_stores_at_most_one (fst Scenario.sink) (snd Scenario.sink)
           frames 11 Hwin).
Defined.

(** X18.  [last_update] after a run is the value of before or the
    arrival time of one of the frames of the run; with an interval that
    is not negative it never moves back. *)
Theorem run_last_update (self : ImagePersistence) (w : list effect)
    (frames : list (ImageMsg * Env)) :
  let self' := fst (snd (run frames (self, w))) in
  (last_update self' = last_update self
   \/ exists f, f ∈ frames /\ last_update self' = time_1 (snd f))
  /\ (0 <= min_update_interval self -> last_update self <= last_update self').
Proof.
  cbv zeta. split.
  - revert self w. induction frames as [|[item env] frames IH]; intros self w.
    + left. reflexivity.
    + rewrite run_cons. cbn [snd].
      destruct (on_image_step self w item env) as [Hself _].
      destruct (on_image item env (self, w)) as [r [self1 w1]].
      cbn [fst snd] in *.
      destruct (IH self1 w1) as [Hkeep|[f [Hin Hf]]].
      * rewrite Hkeep. destruct Hself as [->|[-> _]]; [left; reflexivity|].
        right. exists (item, env). split; [apply list_elem_of_here|reflexivity].
      * right. exists f. split; [apply list_elem_of_further, Hin|exact Hf].
  - intros HT.
    apply (run_floor frames self w (last_update self) HT (Qle_refl _)).
Qed.

Lemma run_last_update_witness :
  0 <= min_update_interval (fst Scenario.sink)
  /\ last_update (fst Scenario.sink)
     <= last_update (fst (snd (run [Scenario.frame 11; Scenario.frame 30]
                                   Scenario.sink))).
Proof.
  assert (HT : 0 <= min_update_interval (fst Scenario.sink))
    by (vm_compute; discriminate).
  split; [exact HT|].
  exact (proj2 (run_last_update (fst Scenario.sink) (snd Scenario.sink)
                  [Scenario.frame 11; Scenario.frame 30]) HT).
Defined.

End ImageMore.

(** ** The script of the image sink *)

Section ImageNodeFacts.
Import Image ImageNode.

Lemma list_ascii_app (a b : string) :
  String.list_ascii_of_string (a +:+ b)
  = String.list_ascii_of_string a ++ String.list_ascii_of_string b.
Proof.
  induction a as [|c a IH]; [reflexivity|].
  change (c :: String.list_ascii_of_string (a +:+ b)
          = c :: (String.list_ascii_of_string a ++ String.list_ascii_of_string b)).
  f_equal. exact IH.
Qed.

Lemma append_cancel_r (a b s : string) : a +:+ s = b +:+ s -> a = b.
Proof.
  intros H. apply (f_equal String.list_ascii_of_string) in H.
  rewrite !list_ascii_app in H. apply app_inv_tail in H.
  rewrite <- (String.string_of_list_ascii_of_string a),
          <- (String.string_of_list_ascii_of_string b), H.
  reflexivity.
Qed.

Lemma camera_topic_inj (a b : string) :
  "/cameras/" +:+ a +:+ "/image_raw" = "/cameras/" +:+ b +:+ "/image_raw" ->
  a = b.
Proof.
  intros H. apply (inj (String.app "/cameras/")) in H.
  apply append_cancel_r in H. exact H.
Qed.

(** The loop ends normally exactly when every camera module met has an
    environment; the list then grows by the sinks of the camera
    modules, in the order of the items. *)
Lemma add_cameras_done (d : Database) (V : VarType) (T : Q)
    (items : list (string * gmap string string))
    (acc objs : list (string * ImagePersistence)) :
  add_cameras d V T acc items = Done objs ->
  objs.*1
  = acc.*1
    ++ map (fun kv => "/cameras/" +:+ fst kv +:+ "/image_raw")
           (filter (fun kv => snd kv !! "namespace" = Some "cameras") items)
  /\ forall x,
       x ∈ objs
       <-> x ∈ acc
           \/ exists module_id module_info environment,
                (module_id, module_info) ∈ items
                /\ module_info !! "namespace" = Some "cameras"
                /\ module_info !! "environment" = Some environment
                /\ x = ("/cameras/" +:+ module_id +:+ "/image_raw",
                        init d V environment T).
Proof.
  revert acc. induction items as [|[module_id module_info] items IH];
    intros acc Hrun; cbn [add_cameras] in Hrun.
  - injection Hrun as <-. split; [cbn; rewrite app_nil_r; reflexivity|].
    intros x. split; [auto|]. intros [H|[? [? [? [Hin _]]]]]; [exact H|].
    apply elem_of_nil in Hin. destruct Hin.
  - unfold add_camera in Hrun. rewrite filter_cons. cbn [snd].
    destruct (decide (module_info !! "namespace" = Some "cameras"))
      as [Hcam|Hcam].
    + destruct (module_info !! "environment") as [environment|] eqn:Henv;
        [|discriminate].
      destruct (IH _ Hrun) as [Htop Hmem]. split.
      * rewrite Htop, fmap_app, <- app_assoc. reflexivity.
      * intros x. rewrite Hmem, elem_of_app, list_elem_of_singleton.
        split.
        -- intros [[H | ->] |[i [info [e [Hin H]]]]]; [auto| |].
           ++ right. exists module_id, module_info, environment.
              split; [apply list_elem_of_here|auto].
           ++ right. exists i, info, e.
              split; [apply list_elem_of_further, Hin|exact H].
        -- intros [H|[i [info [e [Hin [Hn [He ->]]]]]]]; [auto|].
           apply elem_of_cons in Hin. destruct Hin as [[= -> ->]|Hin].
           ++ left. right. congruence.
           ++ right. exists i, info, e. auto.
    + destruct (IH _ Hrun) as [Htop Hmem]. split; [exact Htop|].
      intros x. rewrite Hmem. split.
      * intros [H|[i [info [e [Hin H]]]]]; [auto|].
        right. exists i, info, e.
        split; [apply list_elem_of_further, Hin|exact H].
      * intros [H|[i [info [e [Hin [Hn H]]]]]]; [auto|].
        apply elem_of_cons in Hin. destruct Hin as [[= -> ->]|Hin];
          [congruence|].
        right. exists i, info, e. auto.
Qed.

Lemma add_cameras_failed (d : Database) (V : VarType) (T : Q)
    (items : list (string * gmap string string))
    (acc : list (string * ImagePersistence)) (e : error) :
  add_cameras d V T acc items = Failed e
  <-> e = KeyError "environment"
      /\ exists module_id module_info,
           (module_id, module_info) ∈ items
           /\ module_info !! "namespace" = Some "cameras"
           /\ module_info !! "environment" = None.
Proof.
  revert acc. induction items as [|[module_id module_info] items IH];
    intros acc; cbn [add_cameras].
  - split; [discriminate|]. intros [_ [? [? [Hin _]]]].
    apply elem_of_nil in Hin. destruct Hin.
  - unfold add_camera.
    destruct (decide (module_info !! "namespace" = Some "cameras"))
      as [Hcam|Hcam].
    + destruct (module_info !! "environment") as [environment|] eqn:Henv.
      * rewrite IH. split.
        -- intros [-> [i [info [Hin H]]]]. split; [reflexivity|].
           exists i, info. split; [apply list_elem_of_further, Hin|exact H].
        -- intros [-> [i [info [Hin [Hn He]]]]]. split; [reflexivity|].
           apply elem_of_cons in Hin. destruct Hin as [[= -> ->]|Hin];
             [congruence|].
           exists i, info. auto.
      * split.
        -- intros [= <-]. split; [reflexivity|].
           exists module_id, module_info.
           split; [apply list_elem_of_here|auto].
        -- intros [-> _]. reflexivity.
    + rewrite IH. split.
      * intros [-> [i [info [Hin H]]]]. split; [reflexivity|].
        exists i, info. split; [apply list_elem_of_further, Hin|exact H].
      * intros [-> [i [info [Hin [Hn He]]]]]. split; [reflexivity|].
        apply elem_of_cons in Hin. destruct Hin as [[= -> ->]|Hin];
          [congruence|].
        exists i, info. auto.
Qed.

Lemma modules_of_done
    (S : gmap string string -> option (gmap string string))
    (module_db modules : gmap string (gmap string string)) :
  modules_of S module_db = Done modules ->
  forall module_id module_info,
    (module_id, module_info) ∈ map_to_list modules
    <-> exists document,
          module_db !! module_id = Some document
          /\ String.prefix "_" module_id = false
          /\ S document = Some module_info.
Proof.
  unfold modules_of. intros Hdone module_id module_info.
  destruct (decide (map_Forall _ _)); [|discriminate].
  injection Hdone as <-.
  rewrite elem_of_map_to_list, lookup_omap_Some.
  split.
  - intros [document [HS Hdoc]].
    apply map_lookup_filter_Some in Hdoc. destruct Hdoc as [Hdb Hpre].
    exists document. auto.
  - intros [document [Hdb [Hpre HS]]]. exists document.
    split; [exact HS|]. apply map_lookup_filter_Some. auto.
Qed.

Lemma modules_of_failed
    (S : gmap string string -> option (gmap string string))
    (module_db : gmap string (gmap string string)) (e : error) :
  modules_of S module_db = Failed e
  <-> e = MultipleInvalid
      /\ exists module_id document,
           module_db !! module_id = Some document
           /\ String.prefix "_" module_id = false
           /\ S document = None.
Proof.
  unfold modules_of.
  destruct (decide (map_Forall _ _)) as [Hall|Hnot].
  - split; [discriminate|].
    intros [_ [module_id [document [Hdb [Hpre HS]]]]].
    assert (Hin : filter (fun kv : string * gmap string string =>
                            String.prefix "_" (fst kv) = false) module_db
                  !! module_id = Some document)
      by (apply map_lookup_filter_Some; auto).
    destruct (Hall _ _ Hin) as [x Hx]. congruence.
  - split; [|intros [-> _]; reflexivity].
    intros [= <-]. split; [reflexivity|].
    apply map_not_Forall in Hnot; [|apply _].
    destruct Hnot as [module_id [document [Hin HS]]].
    apply map_lookup_filter_Some in Hin. destruct Hin as [Hdb Hpre].
    exists module_id, document. split; [exact Hdb|]. split; [exact Hpre|].
    destruct (S document) as [x|] eqn:E; [|reflexivity].
    destruct HS. eauto.
Qed.

Lemma falsy_true (db_server : option string) :
  falsy db_server = true <-> db_server = None \/ db_server = Some "".
Proof.
  destruct db_server as [s|]; cbn.
  - rewrite String.eqb_eq. split; [intros ->; auto|].
    intros [H|[= ->]]; [discriminate|reflexivity].
  - split; auto.
Qed.

(** X19.  The script stops with "No database server specified"
    exactly when the configured URL is absent or empty; nothing has
    been logged then. *)
Theorem main_needs_server
    (S : gmap string string -> option (gmap string string))
    (db_server : option string) (params : gmap string Q)
    (d : Database) (V : VarType)
    (module_db : gmap string (gmap string string)) :
  (snd (main S db_server params d V module_db)
   = Failed (Exn (Py.RuntimeError "No database server specified"))
   <-> db_server = None \/ db_server = Some "")
  /\ (db_server = None \/ db_server = Some "" ->
      fst (main S db_server params d V module_db) = []).
Proof.
  rewrite <- falsy_true. unfold main.
  destruct (falsy db_server).
  - split; [split; reflexivity|reflexivity].
  - destruct (read_interval params) as [T warnings].
    split; [|discriminate]. split; [|discriminate].
    destruct (modules_of S module_db) as [modules|e] eqn:Hm; cbn [snd].
    + intros H. apply add_cameras_failed in H. destruct H as [H _].
      discriminate.
    + apply modules_of_failed in Hm. destruct Hm as [-> _]. discriminate.
Qed.

Lemma main_needs_server_witness :
  (Some "" = None \/ Some "" = Some "")
  /\ fst (main Setup.SoftwareModule (Some "") ∅ Setup.env_var_db
               Setup.AERIAL_IMAGE Setup.two_cameras) = [].
Proof.
  assert (H : Some "" = None \/ Some "" = Some "") by (right; reflexivity).
  split; [exact H|].
  exact (proj2 (main_needs_server Setup.SoftwareModule (Some "") ∅
                  Setup.env_var_db Setup.AERIAL_IMAGE Setup.two_cameras) H).
Defined.

(** X20.  When the script reaches [rospy.spin()], its sinks are exactly
    those of the documents of the module database whose identifier
    does not start with an underscore and whose module, as
    [SoftwareModule] returns it, has the namespace "cameras": each on
    the topic [/cameras/<id>/image_raw], with the environment of its
    module, the given database and variable, [last_update] 0, and the
    interval of the parameter [~min_update_interval] or, when that is
    absent, 3600 and one warning. *)
Theorem main_sinks
    (S : gmap string string -> option (gmap string string))
    (db_server : option string) (params : gmap string Q)
    (d : Database) (V : VarType)
    (module_db : gmap string (gmap string string))
    (objs : list (string * ImagePersistence))
    (Hdone : snd (main S db_server params d V module_db) = Done objs) :
  (forall topic sink,
     (topic, sink) ∈ objs
     <-> exists module_id document module_info environment,
           module_db !! module_id = Some document
           /\ String.prefix "_" module_id = false
           /\ S document = Some module_info
           /\ module_info !! "namespace" = Some "cameras"
           /\ module_info !! "environment" = Some environment
           /\ topic = "/cameras/" +:+ module_id +:+ "/image_raw"
           /\ sink = init d V environment
                       (default 3600 (params !! "~min_update_interval")))
  /\ fst (main S db_server params d V module_db)
     = match params !! "~min_update_interval" with
       | Some _ => []
       | None =>
           ["No minimum update interval specified for image persistence module"]
       end.
Proof.
  unfold main in *. destruct (falsy db_server); [discriminate|].
  unfold read_interval in *.
  destruct (modules_of S module_db) as [modules|e] eqn:Hm.
  2:{ destruct (params !! "~min_update_interval"); discriminate. }
  assert (Hrun : add_cameras d V (default 3600 (params !! "~min_update_interval"))
                   [] (map_to_list modules) = Done objs).
  { destruct (params !! "~min_update_interval"); exact Hdone. }
  split; [|destruct (params !! "~min_update_interval"); reflexivity].
  destruct (add_cameras_done _ _ _ _ _ _ Hrun) as [_ Hmem].
  pose proof (modules_of_done S module_db modules Hm) as Hitems.
  intros topic sink. rewrite Hmem. split.
  - intros [H|[i [info [e [Hin [Hn [He Heq]]]]]]];
      [apply elem_of_nil in H; destruct H|].
    apply Hitems in Hin. destruct Hin as [document [Hdb [Hpre HS]]].
    injection Heq as -> ->. exists i, document, info, e. auto 10.
  - intros [i [document [info [e [Hdb [Hpre [HS [Hn [He [-> ->]]]]]]]]]].
    right. exists i, info, e.
    split; [apply Hitems; eauto|auto].
Qed.

Lemma main_sinks_witness :
  snd (main Setup.SoftwareModule (Some "http://localhost:5984") ∅
            Setup.env_var_db Setup.AERIAL_IMAGE Setup.two_cameras)
  = Done Setup.two_sinks
  /\ fst (main Setup.SoftwareModule (Some "http://localhost:5984") ∅
               Setup.env_var_db Setup.AERIAL_IMAGE Setup.two_cameras)
     = ["No minimum update interval specified for image persistence module"].
Proof.
  assert (Hdone : snd (main Setup.SoftwareModule (Some "http://localhost:5984")
                            ∅ Setup.env_var_db Setup.AERIAL_IMAGE
                            Setup.two_cameras)
                  = Done Setup.two_sinks) by (vm_compute; reflexivity).
  split; [exact Hdone|].
  exact (proj2 (main_sinks _ _ _ _ _ _ _ Hdone)).
Defined.

(** X21.  No two sinks of the script listen on the same topic. *)
Theorem main_topics_distinct
    (S : gmap string string -> option (gmap string string))
    (db_server : option string)
    (params : gmap string Q) (d : Database) (V : VarType)
    (module_db : gmap string (gmap string string))
    (objs : list (string * ImagePersistence))
    (Hdone : snd (main S db_server params d V module_db) = Done objs) :
  NoDup objs.*1.
Proof.
  unfold main in Hdone. destruct (falsy db_server); [discriminate|].
  destruct (read_interval params) as [T warnings].
  destruct (modules_of S module_db) as [modules|e]; [|discriminate].
  cbn [snd] in Hdone.
  destruct (add_cameras_done _ _ _ _ _ _ Hdone) as [-> _]. cbn [fmap app].
  change (NoDup ((fun kv : string * gmap string string =>
                    "/cameras/" +:+ fst kv +:+ "/image_raw")
                 <$> filter (fun kv => snd kv !! "namespace" = Some "cameras")
                            (map_to_list modules))).
  apply NoDup_fmap_2_strong.
  - intros [i1 x1] [i2 x2] H1 H2 Heq. cbn [fst] in Heq.
    apply camera_topic_inj in Heq. subst i2.
    apply list_elem_of_filter in H1, H2. destruct H1 as [_ H1], H2 as [_ H2].
    apply elem_of_map_to_list in H1, H2. congruence.
  - apply NoDup_filter, NoDup_map_to_list.
Qed.

Lemma main_topics_distinct_witness :
  snd (main Setup.SoftwareModule (Some "http://localhost:5984") ∅
            Setup.env_var_db Setup.AERIAL_IMAGE Setup.two_cameras)
  = Done Setup.two_sinks
  /\ NoDup Setup.two_sinks.*1.
Proof.
  assert (Hdone : snd (main Setup.SoftwareModule (Some "http://localhost:5984")
                            ∅ Setup.env_var_db Setup.AERIAL_IMAGE
                            Setup.two_cameras)
                  = Done Setup.two_sinks) by (vm_compute; reflexivity).
  split; [exact Hdone|].
  exact (main_topics_distinct _ _ _ _ _ _ _ Hdone).
Defined.

(** X22.  The script stops with [KeyError] exactly when the URL is
    configured, [SoftwareModule] accepts every document whose
    identifier does not start with an underscore, and one of the
    modules it returns has the namespace "cameras" and no environment;
    the missing key is "environment".  A document that
    [SoftwareModule] refuses stops the script before that, with the
    exception of the schema. *)
Theorem main_key_error_iff
    (S : gmap string string -> option (gmap string string))
    (db_server : option string)
    (params : gmap string Q) (d : Database) (V : VarType)
    (module_db : gmap string (gmap string string)) (key : string) :
  (snd (main S db_server params d V module_db) = Failed (KeyError key)
   <-> falsy db_server = false
       /\ key = "environment"
       /\ (forall module_id document,
             module_db !! module_id = Some document ->
             String.prefix "_" module_id = false ->
             is_Some (S document))
       /\ exists module_id document module_info,
            module_db !! module_id = Some document
            /\ String.prefix "_" module_id = false
            /\ S document = Some module_info
            /\ module_info !! "namespace" = Some "cameras"
            /\ module_info !! "environment" = None)
  /\ (snd (main S db_server params d V module_db) = Failed MultipleInvalid
      <-> falsy db_server = false
          /\ exists module_id document,
               module_db !! module_id = Some document
               /\ String.prefix "_" module_id = false
               /\ S document = None).
Proof.
  unfold main. destruct (falsy db_server).
  { split; (split; [discriminate|intros [? _]; discriminate]). }
  destruct (read_interval params) as [T warnings].
  destruct (modules_of S module_db) as [modules|e] eqn:Hm; cbn [snd].
  - pose proof (modules_of_done S module_db modules Hm) as Hitems.
    assert (Hall : forall module_id document,
               module_db !! module_id = Some document ->
               String.prefix "_" module_id = false ->
               is_Some (S document)).
    { intros i document Hdb Hpre.
      destruct (S document) as [x|] eqn:E; [eauto|].
      assert (Hf : modules_of S module_db = Failed MultipleInvalid).
      { apply modules_of_failed. split; [reflexivity|]. eauto. }
      congruence. }
    split.
    + rewrite add_cameras_failed. split.
      * intros [[= ->] [i [info [Hin H]]]].
        apply Hitems in Hin. destruct Hin as [document [Hdb [Hpre HS]]].
        split; [reflexivity|]. split; [reflexivity|]. split; [exact Hall|].
        exists i, document, info. tauto.
      * intros [_ [-> [_ [i [document [info [Hdb [Hpre [HS H]]]]]]]]].
        split; [reflexivity|].
        exists i, info. split; [apply Hitems; eauto|exact H].
    + rewrite add_cameras_failed. split.
      * intros [H _]. discriminate.
      * intros [_ [i [document [Hdb [Hpre HS]]]]].
        destruct (Hall i document Hdb Hpre) as [x Hx]. congruence.
  - apply modules_of_failed in Hm. destruct Hm as [-> Hbad].
    split.
    + split; [discriminate|].
      intros [_ [_ [Hall _]]].
      destruct Hbad as [i [document [Hdb [Hpre HS]]]].
      destruct (Hall i document Hdb Hpre) as [x Hx]. congruence.
    + split; [intros _; split; [reflexivity|exact Hbad]|reflexivity].
Qed.

Lemma main_key_error_iff_witness :
  snd (main Setup.SoftwareModule (Some "http://localhost:5984") ∅
            Setup.env_var_db Setup.AERIAL_IMAGE Setup.one_lost)
  = Failed (KeyError "environment")
  /\ falsy (Some "http://localhost:5984") = false.
Proof.
  assert (H : snd (main Setup.SoftwareModule (Some "http://localhost:5984") ∅
                        Setup.env_var_db Setup.AERIAL_IMAGE Setup.one_lost)
              = Failed (KeyError "environment")) by (vm_compute; reflexivity).
  split; [exact H|].
  exact (proj1 (proj1 (proj1 (main_key_error_iff Setup.SoftwareModule
                                (Some "http://localhost:5984") ∅
                                Setup.env_var_db Setup.AERIAL_IMAGE
                                Setup.one_lost "environment")) H)).
Defined.

End ImageNodeFacts.

